(** * seq2seq.decoders.attention_decoder: the attention decoder in Rocq

    The decoder of [src/seq2seq/decoders/attention_decoder.py] is a thin
    layer over tensor primitives.  Tensors are embedded as nested lists that
    carry their run-time shape, the primitives as executable functions on
    them, and every call that the tensor runtime may reject (a negative
    padding, a concatenation of unequal batches, a sequence length out of
    range) as a function into [option].  The element type is abstract: the
    development never assumes an arithmetic law about it, so everything
    proved holds for float32 as well as for the rationals used in the
    examples. *)

From Stdlib Require Import ZArith QArith Qabs.
From stdpp Require Import base option list strings.

Close Scope Q_scope.
Local Open Scope Z_scope.
Local Open Scope nat_scope.

(** ** Scalars *)

(** The operations the decoder needs from the element type of its float
    tensors: the zero of [tf.zeros] and [tf.pad], the sum and product of the
    dense layers, [tf.nn.tanh], and the strict comparison of [tf.argmax]. *)
Class Scalar (T : Type) := {
  zero : T;
  add : T -> T -> T;
  mul : T -> T -> T;
  tanh : T -> T;
  ltb : T -> T -> bool
}.

(** ** Tensors *)

(** A rank-2 tensor: its dynamic shape ([tf.shape]) and its rows. *)
Record Tensor2 (T : Type) := mkTensor2 {
  shape0 : nat;
  shape1 : nat;
  rows : list (list T)
}.
Arguments mkTensor2 {T} _ _ _.
Arguments shape0 {T} _.
Arguments shape1 {T} _.
Arguments rows {T} _.

(** A rank-3 tensor, [attention_inputs] of shape [B, T, F] or an accumulated
    output of shape [time, B, width]. *)
Record Tensor3 (T : Type) := mkTensor3 {
  t3_shape0 : nat;
  t3_shape1 : nat;
  t3_shape2 : nat;
  planes : list (list (list T))
}.
Arguments mkTensor3 {T} _ _ _ _.
Arguments t3_shape0 {T} _.
Arguments t3_shape1 {T} _.
Arguments t3_shape2 {T} _.
Arguments planes {T} _.

(** The data of a tensor agrees with its shape. *)
Definition wf2 {T} (t : Tensor2 T) : bool :=
  bool_decide (length (rows t) = shape0 t)
  && forallb (fun r => bool_decide (length r = shape1 t)) (rows t).

Definition wf3 {T} (t : Tensor3 T) : bool :=
  bool_decide (length (planes t) = t3_shape0 t)
  && forallb (fun p =>
       bool_decide (length p = t3_shape1 t)
       && forallb (fun r => bool_decide (length r = t3_shape2 t)) p)
     (planes t).

(** The trainable variables of one [fully_connected] layer, read by index:
    [weights k j] is the entry of the kernel at input [k] and output [j],
    [biases j] the bias of output [j]. *)
Record LayerVars (T : Type) := mkLayerVars {
  weights : nat -> nat -> T;
  biases : nat -> T
}.
Arguments mkLayerVars {T} _ _.
Arguments weights {T} _ _ _.
Arguments biases {T} _ _.

Section TensorOps.
Context {T : Type} `{Scalar T}.

(** [tf.zeros([n, m])]. *)
Definition tf_zeros (n m : nat) : Tensor2 T :=
  mkTensor2 n m (replicate n (replicate m zero)).

(** [tf.concat([a, b], 1)]: the rows of [a] and [b] side by side; the
    runtime rejects operands whose first dimensions differ. *)
Definition tf_concat1 (a b : Tensor2 T) : option (Tensor2 T) :=
  if decide (shape0 a = shape0 b)
  then Some (mkTensor2 (shape0 a) (shape1 a + shape1 b)
               (zip_with app (rows a) (rows b)))
  else None.

(** [tf.pad(t, paddings)] on a rank-2 tensor, constant mode: [paddings]
    holds one [before, after] pair per axis, and the runtime rejects a
    negative amount and a list that is not one pair per axis. *)
Definition tf_pad (t : Tensor2 T) (paddings : list (Z * Z))
  : option (Tensor2 T) :=
  match paddings with
  | [(before0, after0); (before1, after1)] =>
      if bool_decide (0 <= before0 /\ 0 <= after0
                      /\ 0 <= before1 /\ 0 <= after1)%Z
      then
        let w := Z.to_nat before1 + shape1 t + Z.to_nat after1 in
        Some (mkTensor2 (Z.to_nat before0 + shape0 t + Z.to_nat after0) w
                (replicate (Z.to_nat before0) (replicate w zero)
                 ++ ((fun r => replicate (Z.to_nat before1) zero ++ r
                               ++ replicate (Z.to_nat after1) zero)
                     <$> rows t)
                 ++ replicate (Z.to_nat after0) (replicate w zero)))
      else None
  | _ => None
  end.

(** [t.set_shape([s0, s1])]: a shape annotation, [None] for an axis left
    open.  It changes no value and is rejected when a given size is not
    the size the tensor has. *)
Definition set_shape (t : Tensor2 T) (s0 s1 : option Z)
  : option (Tensor2 T) :=
  let compatible (s : option Z) (n : nat) :=
    match s with None => true | Some z => bool_decide (z = Z.of_nat n) end in
  if compatible s0 (shape0 t) && compatible s1 (shape1 t)
  then Some t else None.

(** One example of [tf.reverse_sequence]: the first [n] entries reversed,
    the rest in place. *)
Definition reverse_prefix (n : nat) (r : list T) : list T :=
  reverse (take n r) ++ drop n r.

(** [tf.reverse_sequence(input, seq_lengths, seq_dim=1, batch_dim=0)]:
    the kernel requires one length per example and every length between
    0 and [input.shape[1]]. *)
Definition tf_reverse_sequence (input : Tensor2 T) (seq_lengths : list Z)
  : option (Tensor2 T) :=
  if bool_decide (length seq_lengths = shape0 input)
     && forallb (fun n => bool_decide (0 <= n <= Z.of_nat (shape1 input))%Z)
                seq_lengths
  then Some (mkTensor2 (shape0 input) (shape1 input)
               (zip_with (fun r n => reverse_prefix (Z.to_nat n) r)
                         (rows input) seq_lengths))
  else None.

(** [t[:, :, :n]]: a slice end beyond the axis is clamped to it. *)
Definition slice_axis2 (n : nat) (t : Tensor3 T) : Tensor3 T :=
  mkTensor3 (t3_shape0 t) (t3_shape1 t) (n `min` t3_shape2 t)
    ((fun p : list (list T) => take n <$> p) <$> planes t).

(** [tf.argmax] along a vector: the index of the first largest entry; an
    empty axis is rejected. *)
Fixpoint argmax_from (best_i : nat) (best : T) (i : nat) (l : list T)
  : nat :=
  match l with
  | [] => best_i
  | x :: l' =>
      if ltb best x then argmax_from i x (S i) l'
      else argmax_from best_i best (S i) l'
  end.

Definition argmax_row (l : list T) : option Z :=
  match l with
  | [] => None
  | x :: l' => Some (Z.of_nat (argmax_from 0 x 1 l'))
  end.

(** [tf.argmax(logits, 1)]: one index per example. *)
Definition tf_argmax1 (logits : Tensor2 T) : option (list Z) :=
  mapM argmax_row (rows logits).

(** *** Dense layers *)

(** The inner product of a row with column [j] of the kernel, entries of
    the row counted from [k]. *)
Fixpoint dot_from (k : nat) (x : list T) (w : nat -> T) : T :=
  match x with
  | [] => zero
  | xk :: x' => add (mul xk (w k)) (dot_from (S k) x' w)
  end.

Definition dense_unit (v : LayerVars T) (activation_fn : option (T -> T))
    (x : list T) (j : nat) : T :=
  let pre := add (dot_from 0 x (fun k => weights v k j)) (biases v j) in
  match activation_fn with
  | Some f => f pre
  | None => pre
  end.

(** [tf.contrib.layers.fully_connected(inputs, num_outputs, activation_fn,
    scope)] on a rank-2 input: [activation_fn(inputs . W + b)] with the
    variables of [scope]. *)
Definition fully_connected (store : string -> LayerVars T)
    (inputs : Tensor2 T) (num_outputs : nat)
    (activation_fn : option (T -> T)) (scope : string) : Tensor2 T :=
  mkTensor2 (shape0 inputs) num_outputs
    ((fun x => dense_unit (store scope) activation_fn x
               <$> seq 0 num_outputs)
     <$> rows inputs).
End TensorOps.

(** ** The decoder *)

(** The namedtuple [AttentionDecoderOutput].  The same tuple holds the
    tensors of one step, the tensors accumulated over all steps, and the
    sizes and types declared for them, so its fields are polymorphic. *)
Record AttentionDecoderOutput (L P C S A : Type) := mkAttentionDecoderOutput {
  logits : L;
  predicted_ids : P;
  cell_output : C;
  attention_scores : S;
  attention_context : A
}.
Arguments mkAttentionDecoderOutput {L P C S A} _ _ _ _ _.
Arguments logits {L P C S A} _.
Arguments predicted_ids {L P C S A} _.
Arguments cell_output {L P C S A} _.
Arguments attention_scores {L P C S A} _.
Arguments attention_context {L P C S A} _.

(** [outputs._replace(attention_scores=s)]. *)
Definition _replace_attention_scores {L P C S A S'}
    (outputs : AttentionDecoderOutput L P C S A) (s : S')
  : AttentionDecoderOutput L P C S' A :=
  mkAttentionDecoderOutput (logits outputs) (predicted_ids outputs)
    (cell_output outputs) s (attention_context outputs).

(** The outputs of one step: [logits] of shape [B, vocab_size],
    [predicted_ids] of shape [B], the other fields of rank 2. *)
Definition StepOutput (T : Type) : Type :=
  AttentionDecoderOutput (Tensor2 T) (list Z) (Tensor2 T) (Tensor2 T)
    (Tensor2 T).

(** The outputs of all steps, stacked along a leading time axis. *)
Definition SequenceOutput (T : Type) : Type :=
  AttentionDecoderOutput (Tensor3 T) (list (list Z)) (Tensor3 T) (Tensor3 T)
    (Tensor3 T).

Inductive DType := float32 | int64.

(** A [tf.contrib.rnn.RNNCell]: the transition and its declared output
    width.  Like every injected callable it may raise, hence [option]. *)
Module RNNCell.
Record t (T State : Type) := mk {
  call : Tensor2 T -> State -> option (Tensor2 T * State);
  output_size : nat
}.
Arguments mk {T State} _ _.
Arguments call {T State} _ _ _.
Arguments output_size {T State} _.
End RNNCell.

(** The attributes the decoder inherits from [DecoderBase]. *)
Record DecoderBase (T State : Type) := mkDecoderBase {
  cell : RNNCell.t T State;
  input_fn : Z -> bool -> option (StepOutput T)
             -> option (Tensor2 T * list bool);
  initial_state : State;
  max_decode_length : Z;
  prediction_fn : Tensor2 T -> option (list Z);
  name : string
}.
Arguments mkDecoderBase {T State} _ _ _ _ _ _.
Arguments cell {T State} _.
Arguments input_fn {T State} _ _ _ _.
Arguments initial_state {T State} _.
Arguments max_decode_length {T State} _.
Arguments prediction_fn {T State} _ _.
Arguments name {T State} _.

Record AttentionDecoder (T State : Type) := mkAttentionDecoder {
  base : DecoderBase T State;
  vocab_size : nat;
  attention_inputs : Tensor3 T;
  attention_fn : Tensor2 T -> Tensor3 T -> option (Tensor2 T * Tensor2 T);
  attention_inputs_max_len : Z;
  reverse_scores_lengths : option (list Z)
}.
Arguments mkAttentionDecoder {T State} _ _ _ _ _ _.
Arguments base {T State} _.
Arguments vocab_size {T State} _.
Arguments attention_inputs {T State} _.
Arguments attention_fn {T State} _ _ _.
Arguments attention_inputs_max_len {T State} _.
Arguments reverse_scores_lengths {T State} _.

(** ** The decoding loop of the base class *)

Section BaseLoop.
Context {T State : Type}.

(** The methods of the decoder the loop drives, and what it declares. *)
Variable initialize : option (list bool * Tensor2 T * State).
Variable step : Z -> Tensor2 T -> State
                -> option (StepOutput T * State * Tensor2 T * list bool).
Variable max_decode_length : Z.
Variable output_size : AttentionDecoderOutput nat (list nat) nat Z nat.

(** Modelled from the spec: the iteration of [DecoderBase._build], whose
    file is not among the sources.  It calls [step] repeatedly until all
    examples are finished or the maximum length is reached, and collects
    the outputs of the steps in order. *)
Fixpoint decode_steps (fuel : nat) (time_ : Z) (inputs : Tensor2 T)
    (state : State) (finished : list bool)
  : option (list (StepOutput T) * State) :=
  match fuel with
  | O => Some ([], state)
  | S fuel' =>
      if forallb id finished then Some ([], state)
      else
        '(outputs, state', next_inputs, finished') ←
          step time_ inputs state;
        '(rest, final_state) ←
          decode_steps fuel' (time_ + 1)%Z next_inputs state' finished';
        Some (outputs :: rest, final_state)
  end.

(** Modelled from the spec: [DecoderBase._build], whose file is not among
    the sources.  It calls [initialize] once, runs the steps, and stacks
    their outputs into batched sequences with a leading time axis, every
    field with the width that [output_size] declares for it. *)
Definition DecoderBase_build : option (SequenceOutput T * State) :=
  '(finished, first_inputs, initial_state) ← initialize;
  '(outs, final_state) ←
    decode_steps (Z.to_nat max_decode_length) 0%Z first_inputs
      initial_state finished;
  let stack (width : nat) (field : StepOutput T -> Tensor2 T) :=
    mkTensor3 (length outs) (shape0 first_inputs) width
      ((fun o => rows (field o)) <$> outs) in
  Some (mkAttentionDecoderOutput
          (stack (logits output_size) logits)
          (predicted_ids <$> outs)
          (stack (cell_output output_size) cell_output)
          (stack (Z.to_nat (attention_scores output_size))
             attention_scores)
          (stack (attention_context output_size) attention_context),
        final_state).
End BaseLoop.

Section Decoder.
Context {T State : Type} `{Scalar T}.

(** Modelled from the spec: the constructor of [DecoderBase], whose file
    is not among the sources.  It keeps the collaborators it is given, and
    a [prediction_fn] that is not supplied defaults to arg-max over the
    vocabulary axis. *)
Definition DecoderBase__init__ (cell : RNNCell.t T State)
    (input_fn : Z -> bool -> option (StepOutput T)
                -> option (Tensor2 T * list bool))
    (initial_state : State) (max_decode_length : Z)
    (prediction_fn : option (Tensor2 T -> option (list Z)))
    (name : string) : DecoderBase T State :=
  mkDecoderBase cell input_fn initial_state max_decode_length
    (match prediction_fn with
     | Some f => f
     | None => tf_argmax1
     end)
    name.

(** [AttentionDecoder.__init__].  An argument with a default is an
    [option], [None] when the caller leaves it out. *)
Definition __init__ (cell : RNNCell.t T State)
    (input_fn : Z -> bool -> option (StepOutput T)
                -> option (Tensor2 T * list bool))
    (initial_state : State) (vocab_size : nat)
    (attention_inputs : Tensor3 T)
    (attention_fn : Tensor2 T -> Tensor3 T
                    -> option (Tensor2 T * Tensor2 T))
    (max_decode_length : Z)
    (reverse_scores_lengths : option (list Z))
    (attention_inputs_max_len : option Z)
    (prediction_fn : option (Tensor2 T -> option (list Z)))
    (name : option string) : AttentionDecoder T State :=
  mkAttentionDecoder
    (DecoderBase__init__ cell input_fn initial_state max_decode_length
       prediction_fn (default "attention_decoder"%string name))
    vocab_size attention_inputs attention_fn
    (default 500%Z attention_inputs_max_len)
    reverse_scores_lengths.

(** The variable store of the graph: the variables of the dense layer
    created under each scope. *)
Variable store : string -> LayerVars T.

(** What [DecoderBase._build], the decoding loop, returns for a decoder:
    the stacked outputs and the final state.  The loop is an external
    collaborator of this file. *)
Variable super_build
  : AttentionDecoder T State -> option (SequenceOutput T * State).

Implicit Type self : AttentionDecoder T State.

Definition output_size self
  : AttentionDecoderOutput nat (list nat) nat Z nat :=
  mkAttentionDecoderOutput
    (vocab_size self)
    []
    (RNNCell.output_size (cell (base self)))
    (attention_inputs_max_len self)
    (t3_shape2 (attention_inputs self)).

Definition output_dtype self
  : AttentionDecoderOutput DType DType DType DType DType :=
  mkAttentionDecoderOutput float32 int64 float32 float32 float32.

Definition initialize self
  : option (list bool * Tensor2 T * State) :=
  '(first_inputs, finished) ← input_fn (base self) 0%Z true None;
  (* Concat empty attention context *)
  let attention_context :=
    tf_zeros (shape0 first_inputs) (t3_shape2 (attention_inputs self)) in
  first_inputs ← tf_concat1 first_inputs attention_context;
  Some (finished, first_inputs, initial_state (base self)).

Definition _build self : option (SequenceOutput T * State) :=
  '(outputs, final_state) ← super_build self;
  (* Slice attention scores to actual length *)
  let source_len := t3_shape1 (attention_inputs self) in
  let outputs :=
    _replace_attention_scores outputs
      (slice_axis2 source_len (attention_scores outputs)) in
  Some (outputs, final_state).

Definition compute_output self (cell_output : Tensor2 T)
  : option (Tensor2 T * Tensor2 T * Tensor2 T * Tensor2 T) :=
  (* Compute attention *)
  '(att_scores, attention_context) ←
    attention_fn self cell_output (attention_inputs self);
  (* Transform attention context *)
  mix_inputs ← tf_concat1 cell_output attention_context;
  let softmax_input :=
    fully_connected store mix_inputs
      (RNNCell.output_size (cell (base self))) (Some tanh)
      "attention_mix" in
  (* Softmax computation *)
  let logits :=
    fully_connected store softmax_input (vocab_size self) None "logits" in
  Some (softmax_input, logits, att_scores, attention_context).

Definition _pad_att_scores self (scores : Tensor2 T)
  : option (Tensor2 T) :=
  let max_len := attention_inputs_max_len self in
  scores ← tf_pad scores
    [(0, 0); (0, max_len - Z.of_nat (shape1 scores))]%Z;
  set_shape scores None (Some max_len).

Definition step self (time_ : Z) (inputs : Tensor2 T) (state : State)
  : option (StepOutput T * State * Tensor2 T * list bool) :=
  '(cell_output, cell_state) ← RNNCell.call (cell (base self)) inputs state;
  '(cell_output_new, logits, att_scores, attention_context) ←
    compute_output self cell_output;
  attention_scores ← _pad_att_scores self att_scores;
  attention_scores ←
    match reverse_scores_lengths self with
    | Some seq_lengths => tf_reverse_sequence attention_scores seq_lengths
    | None => Some attention_scores
    end;
  predicted_ids ← prediction_fn (base self) logits;
  let outputs : StepOutput T :=
    mkAttentionDecoderOutput logits predicted_ids cell_output_new
      attention_scores attention_context in
  '(next_inputs, finished) ←
    input_fn (base self) (time_ + 1)%Z false (Some outputs);
  next_inputs ← tf_concat1 next_inputs attention_context;
  Some (outputs, cell_state, next_inputs, finished).
End Decoder.

(** ** Reference results *)

Section Reference.
Context {T : Type} `{Scalar T}.

(** What padding to [max_len] columns yields when there is room for it:
    every row followed by the missing zeros. *)
Definition padded_to (max_len : Z) (scores : Tensor2 T) : Tensor2 T :=
  mkTensor2 (shape0 scores) (Z.to_nat max_len)
    ((fun r => r ++ replicate (Z.to_nat max_len - shape1 scores) zero)
     <$> rows scores).
End Reference.

(** ** A concrete decoding problem *)

(** The scenario of the spec: a batch of 2, a source of length 5, scores
    padded to 8, a vocabulary of 10.  Tensors hold rationals; [tanh] is
    played by the softsign [x / (1 + |x|)], which no statement depends on. *)
Module Scenario.
#[global] Instance Q_scalar : Scalar Q := {|
  zero := 0%Q;
  add := Qplus;
  mul := Qmult;
  tanh := fun x => (x / (1 + Qabs x))%Q;
  ltb := fun x y => negb (Qle_bool y x)
|}.

Definition encoder_outputs : Tensor3 Q :=
  mkTensor3 2 5 3
    [ [ [1; 0; 0]; [0; 1; 0]; [0; 0; 1]; [1; 1; 0]; [0; 1; 1] ];
      [ [2; 0; 1]; [0; 2; 0]; [1; 0; 2]; [1; 1; 1]; [0; 0; 3] ] ]%Q.

(** A cell of width 4: the new state is the old one plus the first four
    columns of the input, and it is also the output. *)
Definition demo_cell : RNNCell.t Q (Tensor2 Q) :=
  RNNCell.mk
    (fun inputs state =>
       let state' :=
         mkTensor2 (shape0 state) 4
           (zip_with (zip_with Qplus) (rows state)
              (take 4 <$> rows inputs)) in
       Some (state', state'))
    4.

(** Dot-product attention without normalisation: the score of a source
    position is the inner product of its encoding with the first columns
    of the query, the context is the score-weighted sum of the
    encodings. *)
Definition demo_attention (query : Tensor2 Q) (inputs : Tensor3 Q)
  : option (Tensor2 Q * Tensor2 Q) :=
  let dot (x y : list Q) := foldr Qplus 0%Q (zip_with Qmult x y) in
  let scores := zip_with (fun q plane => dot q <$> plane)
                  (rows query) (planes inputs) in
  let weighted (sc : list Q) (plane : list (list Q)) :=
    foldr (zip_with Qplus) (replicate (t3_shape2 inputs) 0%Q)
      (zip_with (fun a v => Qmult a <$> v) sc plane) in
  Some (mkTensor2 (t3_shape0 inputs) (t3_shape1 inputs) scores,
        mkTensor2 (t3_shape0 inputs) (t3_shape2 inputs)
          (zip_with weighted scores (planes inputs))).

(** Free-running inputs of width 1: the start token first, then the
    previous prediction; every example finishes after the third step. *)
Definition demo_input_fn (time_ : Z) (initial_call : bool)
    (predictions : option (StepOutput Q))
  : option (Tensor2 Q * list bool) :=
  match predictions with
  | None => Some (mkTensor2 2 1 [[1]; [2]]%Q, [false; false])
  | Some outputs =>
      let ids := predicted_ids outputs in
      Some (mkTensor2 (length ids) 1 ((fun i => [inject_Z i]) <$> ids),
            replicate (length ids) (bool_decide (3 <= time_)%Z))
  end.

Definition demo_store (scope : string) : LayerVars Q :=
  mkLayerVars
    (fun k j => (inject_Z (Z.of_nat (k + j) `mod` 3) - 1)%Q)
    (fun j => (inject_Z (Z.of_nat j) / 10)%Q).

(** Raw scores as the attention function returns them: one per source
    position. *)
Definition raw_scores : Tensor2 Q :=
  mkTensor2 2 5 [[1; 1; 0; 2; 1]; [7; 0; 5; 4; 3]]%Q.

(** The first input of the decoder: the start tokens, followed by the
    empty attention context. *)
Definition first_inputs : Tensor2 Q :=
  mkTensor2 2 4 [[1; 0; 0; 0]; [2; 0; 0; 0]]%Q.

Definition demo_state : Tensor2 Q :=
  mkTensor2 2 4 [[0; 1; 0; 1]; [1; 0; 1; 0]]%Q.

Definition make_decoder (reverse_scores_lengths : option (list Z))
    (attention_inputs_max_len : option Z)
  : AttentionDecoder Q (Tensor2 Q) :=
  __init__ demo_cell demo_input_fn demo_state 10 encoder_outputs
    demo_attention 6%Z reverse_scores_lengths attention_inputs_max_len
    None None.

Definition decoder := make_decoder None (Some 8%Z).
Definition reversing_decoder := make_decoder (Some [5; 3]%Z) (Some 8%Z).
Definition short_decoder := make_decoder None (Some 4%Z).

Definition demo_super_build (self : AttentionDecoder Q (Tensor2 Q))
  : option (SequenceOutput Q * Tensor2 Q) :=
  DecoderBase_build (initialize self) (step demo_store self)
    (max_decode_length (base self)) (output_size self).
End Scenario.

(** ** Further configurations of the scenario *)

Module Cases.
(** Scores padded to exactly the source length. *)
Definition exact_decoder := Scenario.make_decoder None (Some 5%Z).

(** No [attention_inputs_max_len] given to the constructor. *)
Definition default_decoder := Scenario.make_decoder None None.

(** Reversal lengths beyond the source length 5 but within the padded
    width 8. *)
Definition overlong_decoder :=
  Scenario.make_decoder (Some [7; 6]%Z) (Some 8%Z).

(** What the cell of the scenario returns on the first input. *)
Definition first_cell_output : Tensor2 Q :=
  mkTensor2 2 4 [[1; 1; 0; 1]; [3; 0; 1; 0]]%Q.

(** The attention context of the first step. *)
Definition first_context : Tensor2 Q :=
  mkTensor2 2 3 [[3; 4; 1]; [23; 4; 30]]%Q.

(** The raw scores of the three steps of the scenario. *)
Definition step_scores : list (Tensor2 Q) :=
  [ mkTensor2 2 5 [[1; 1; 0; 2; 1]; [7; 0; 5; 4; 3]];
    mkTensor2 2 5 [[9; 4; 4; 13; 8]; [29; 46; 22; 40; 15]];
    mkTensor2 2 5 [[17; 26; 29; 43; 55]; [179; 286; 295; 301; 411]] ]%Q.
End Cases.

(** * Properties *)

(** [bind_inv H as pat eqn:E] looks at the first monadic bind of a
    hypothesis [H : (x ← e; k) = Some _]: the bound computation [e] must
    have returned, so it is replaced by its result, named by [pat], and
    [E : e = Some pat] is kept. *)
Tactic Notation "bind_inv" hyp(H) "as" simple_intropattern(pat)
    "eqn" ":" ident(E) :=
  lazymatch type of H with
  | context [mbind _ ?e] =>
      destruct e as [pat|] eqn:E; [|done]; cbn [mbind option_bind] in H
  end.

(** ** Well-formed tensors *)

Section TensorFacts.
Context {T : Type} `{Scalar T}.

Lemma wf2_spec (t : Tensor2 T) :
  wf2 t = true <->
  length (rows t) = shape0 t
  /\ Forall (fun r => length r = shape1 t) (rows t).
Proof.
  unfold wf2. rewrite andb_true_iff, bool_decide_eq_true.
  rewrite forallb_forall, Forall_forall.
  split; intros [Hn Hr]; split; auto; intros r Hin.
  - eapply bool_decide_eq_true_1, Hr. by apply list_elem_of_In.
  - apply bool_decide_eq_true_2, Hr. by apply list_elem_of_In.
Qed.

Lemma wf2_row (t : Tensor2 T) i r :
  wf2 t = true -> rows t !! i = Some r -> length r = shape1 t.
Proof.
  intros [_ Hr]%wf2_spec Hi.
  by apply (Forall_lookup_1 _ _ _ _ Hr Hi).
Qed.

Lemma wf3_spec (t : Tensor3 T) :
  wf3 t = true <->
  length (planes t) = t3_shape0 t
  /\ Forall (fun p => length p = t3_shape1 t
                      /\ Forall (fun r => length r = t3_shape2 t) p)
       (planes t).
Proof.
  unfold wf3. rewrite andb_true_iff, bool_decide_eq_true.
  rewrite forallb_forall, Forall_forall.
  split; intros [Hn Hp]; split; auto.
  - intros p Hin. apply list_elem_of_In, Hp in Hin.
    apply andb_true_iff in Hin as [Hl Hr].
    apply bool_decide_eq_true_1 in Hl. split; [done|].
    apply Forall_forall. intros r Hr'.
    rewrite forallb_forall in Hr.
    eapply bool_decide_eq_true_1, Hr. by apply list_elem_of_In.
  - intros p Hin. apply list_elem_of_In, Hp in Hin as [Hl Hr].
    apply andb_true_iff. split; [by apply bool_decide_eq_true_2|].
    apply forallb_forall. intros r Hr'.
    apply bool_decide_eq_true_2.
    rewrite Forall_forall in Hr. by apply Hr, list_elem_of_In.
Qed.
End TensorFacts.

(** ** Padding the attention scores *)

Section Padding.
Context {T State : Type} `{Scalar T}.
Implicit Type self : AttentionDecoder T State.

Lemma pad_att_scores_Some self scores :
  (Z.of_nat (shape1 scores) <= attention_inputs_max_len self)%Z ->
  _pad_att_scores self scores
  = Some (padded_to (attention_inputs_max_len self) scores).
Proof.
  intros Hle. unfold _pad_att_scores, tf_pad, padded_to.
  rewrite bool_decide_eq_true_2 by lia. cbn [mbind option_bind].
  unfold set_shape. cbn [shape0 shape1 andb].
  rewrite bool_decide_eq_true_2 by lia.
  change (Z.to_nat 0) with 0%nat. cbn [replicate app Nat.add].
  rewrite app_nil_r, Nat.add_0_r. f_equal. f_equal; [lia|].
  apply list_fmap_ext. intros _ r _. do 2 f_equal. lia.
Qed.

Lemma pad_att_scores_None self scores :
  (attention_inputs_max_len self < Z.of_nat (shape1 scores))%Z ->
  _pad_att_scores self scores = None.
Proof.
  intros Hlt. unfold _pad_att_scores, tf_pad.
  by rewrite bool_decide_eq_false_2 by lia.
Qed.

Lemma padded_to_wf max_len scores :
  wf2 scores = true -> (Z.of_nat (shape1 scores) <= max_len)%Z ->
  wf2 (padded_to max_len scores) = true.
Proof.
  intros [Hn Hr]%wf2_spec Hle. apply wf2_spec.
  cbn [padded_to rows shape0 shape1].
  split; [by rewrite length_fmap|].
  apply Forall_fmap. eapply Forall_impl; [exact Hr|].
  intros r Hlen. unfold compose.
  rewrite length_app, length_replicate, Hlen. lia.
Qed.
End Padding.

(** ** One step, taken apart *)

Section StepFacts.
Context {T State : Type} `{Scalar T}.
Variable store : string -> LayerVars T.
Implicit Type self : AttentionDecoder T State.

(** A [compute_output] that returns went through its stages in order. *)
Lemma compute_output_Some_inv self raw_cell_output mixed lg att ctx :
  compute_output store self raw_cell_output = Some (mixed, lg, att, ctx) ->
  exists mix_inputs,
    attention_fn self raw_cell_output (attention_inputs self)
    = Some (att, ctx)
    /\ tf_concat1 raw_cell_output ctx = Some mix_inputs
    /\ mixed = fully_connected store mix_inputs
                 (RNNCell.output_size (cell (base self))) (Some tanh)
                 "attention_mix"
    /\ lg = fully_connected store mixed (vocab_size self) None "logits".
Proof.
  unfold compute_output. intros Hout.
  bind_inv Hout as [att' ctx'] eqn:Hatt.
  bind_inv Hout as mix_inputs eqn:Hcat.
  injection Hout as <- <- <- <-. by exists mix_inputs.
Qed.

(** It returns as soon as the attention function does and the batches of
    the cell output and of the context agree. *)
Lemma compute_output_is_Some self raw_cell_output att ctx :
  attention_fn self raw_cell_output (attention_inputs self)
  = Some (att, ctx) ->
  shape0 raw_cell_output = shape0 ctx ->
  exists mixed lg,
    compute_output store self raw_cell_output = Some (mixed, lg, att, ctx).
Proof.
  intros Hatt Hbatch. unfold compute_output. rewrite Hatt.
  cbn [mbind option_bind]. unfold tf_concat1.
  rewrite decide_True by done. cbn [mbind option_bind]. by do 2 eexists.
Qed.

(** A step that returns went through every stage of [step] in order. *)
Lemma step_Some_inv self time_ inputs state outputs cell_state next_inputs
    finished :
  step store self time_ inputs state
  = Some (outputs, cell_state, next_inputs, finished) ->
  exists raw_cell_output mixed lg att ctx padded scores ids raw_next,
    RNNCell.call (cell (base self)) inputs state
    = Some (raw_cell_output, cell_state)
    /\ compute_output store self raw_cell_output
       = Some (mixed, lg, att, ctx)
    /\ _pad_att_scores self att = Some padded
    /\ match reverse_scores_lengths self with
       | Some seq_lengths => tf_reverse_sequence padded seq_lengths
       | None => Some padded
       end = Some scores
    /\ prediction_fn (base self) lg = Some ids
    /\ outputs = mkAttentionDecoderOutput lg ids mixed scores ctx
    /\ input_fn (base self) (time_ + 1)%Z false (Some outputs)
       = Some (raw_next, finished)
    /\ tf_concat1 raw_next ctx = Some next_inputs.
Proof.
  unfold step. intros Hstep.
  bind_inv Hstep as [co cs] eqn:Hcell.
  bind_inv Hstep as [[[mixed lg] att] ctx] eqn:Hout.
  bind_inv Hstep as padded eqn:Hpad.
  bind_inv Hstep as scores eqn:Hrev.
  bind_inv Hstep as ids eqn:Hpred.
  bind_inv Hstep as [raw_next fin] eqn:Hin.
  bind_inv Hstep as next eqn:Hcat.
  injection Hstep as <- <- <- <-.
  exists co, mixed, lg, att, ctx, padded, scores, ids, raw_next.
  by rewrite Hin.
Qed.

(** Conversely, a step returns as soon as each of its stages does. *)
Lemma step_is_Some self time_ inputs state raw_cell_output cell_state mixed
    lg att ctx scores ids raw_next finished :
  RNNCell.call (cell (base self)) inputs state
  = Some (raw_cell_output, cell_state) ->
  compute_output store self raw_cell_output = Some (mixed, lg, att, ctx) ->
  (Z.of_nat (shape1 att) <= attention_inputs_max_len self)%Z ->
  match reverse_scores_lengths self with
  | Some seq_lengths =>
      tf_reverse_sequence (padded_to (attention_inputs_max_len self) att)
        seq_lengths
  | None => Some (padded_to (attention_inputs_max_len self) att)
  end = Some scores ->
  prediction_fn (base self) lg = Some ids ->
  input_fn (base self) (time_ + 1)%Z false
    (Some (mkAttentionDecoderOutput lg ids mixed scores ctx))
  = Some (raw_next, finished) ->
  shape0 raw_next = shape0 ctx ->
  exists next_inputs,
    step store self time_ inputs state
    = Some (mkAttentionDecoderOutput lg ids mixed scores ctx, cell_state,
            next_inputs, finished).
Proof.
  intros Hcell Hout Hle Hrev Hpred Hin Hbatch. unfold step.
  rewrite Hcell. cbn [mbind option_bind].
  rewrite Hout. cbn [mbind option_bind].
  rewrite pad_att_scores_Some by done. cbn [mbind option_bind].
  rewrite Hrev. cbn [mbind option_bind].
  rewrite Hpred. cbn [mbind option_bind]. cbv zeta.
  unfold StepOutput in *. rewrite Hin. cbn [mbind option_bind].
  unfold tf_concat1. rewrite decide_True by done.
  cbn [mbind option_bind]. by eexists.
Qed.
End StepFacts.

(** ** C1: fixed-width padding of the scores *)

Section PaddingClaim.
Context {T State : Type} `{Scalar T}.
Variable store : string -> LayerVars T.
Implicit Type self : AttentionDecoder T State.

Lemma padded_to_row max_len (scores : Tensor2 T) i r :
  wf2 scores = true -> (Z.of_nat (shape1 scores) <= max_len)%Z ->
  rows scores !! i = Some r ->
  exists r', rows (padded_to max_len scores) !! i = Some r'
    /\ Z.of_nat (length r') = max_len
    /\ take (shape1 scores) r' = r
    /\ drop (shape1 scores) r'
       = replicate (Z.to_nat max_len - shape1 scores) zero.
Proof.
  intros Hwf Hle Hi. pose proof (wf2_row _ _ _ Hwf Hi) as Hlen.
  eexists. split.
  { cbn [padded_to rows]. by rewrite list_lookup_fmap, Hi. }
  rewrite length_app, length_replicate, <- Hlen.
  rewrite take_app_length, drop_app_length. split; [lia|done].
Qed.

(** C1.  [_pad_att_scores] pads every example's raw scores on the right
    with zeros up to exactly [attention_inputs_max_len] columns.  When
    [attention_inputs_max_len] is smaller than the score length the pad
    amount is negative and the padding fails, and with it every step whose
    attention function returned these scores.  With a source of length 5
    and [attention_inputs_max_len = 8] the padded scores have width 8 and
    their entries 5, 6 and 7 are zero. *)
Theorem pad_att_scores_fixed_width self (scores : Tensor2 T) :
  wf2 scores = true ->
  let max_len := attention_inputs_max_len self in
  ((Z.of_nat (shape1 scores) <= max_len)%Z ->
     exists padded,
       _pad_att_scores self scores = Some padded
       /\ wf2 padded = true
       /\ shape0 padded = shape0 scores
       /\ Z.of_nat (shape1 padded) = max_len
       /\ forall i r, rows scores !! i = Some r ->
            exists r', rows padded !! i = Some r'
              /\ Z.of_nat (length r') = max_len
              /\ take (shape1 scores) r' = r
              /\ drop (shape1 scores) r'
                 = replicate (Z.to_nat max_len - shape1 scores) zero)
  /\ ((max_len < Z.of_nat (shape1 scores))%Z ->
        _pad_att_scores self scores = None
        /\ forall time_ inputs state raw_cell_output cell_state mixed lg ctx,
             RNNCell.call (cell (base self)) inputs state
             = Some (raw_cell_output, cell_state) ->
             compute_output store self raw_cell_output
             = Some (mixed, lg, scores, ctx) ->
             step store self time_ inputs state = None)
  /\ (shape1 scores = 5 -> max_len = 8%Z ->
        exists padded,
          _pad_att_scores self scores = Some padded
          /\ shape1 padded = 8
          /\ length (rows padded) = length (rows scores)
          /\ forall r', r' ∈ rows padded ->
               length r' = 8
               /\ r' !! 5 = Some zero
               /\ r' !! 6 = Some zero
               /\ r' !! 7 = Some zero).
Proof.
  intros Hwf max_len. split; [|split].
  - intros Hle. exists (padded_to max_len scores).
    split; [by apply pad_att_scores_Some|].
    split; [by apply padded_to_wf|].
    split; [done|]. split; [cbn [padded_to shape1]; lia|].
    intros i r Hi. by apply padded_to_row.
  - intros Hlt. pose proof (pad_att_scores_None self scores Hlt) as Hpad.
    split; [done|].
    intros time_ inputs state co cs mixed lg ctx Hcell Hout.
    unfold step. rewrite Hcell. cbn [mbind option_bind].
    rewrite Hout. cbn [mbind option_bind]. by rewrite Hpad.
  - intros H5 H8. exists (padded_to max_len scores).
    split; [apply pad_att_scores_Some; fold max_len; lia|].
    split; [cbn [padded_to shape1]; lia|].
    split; [cbn [padded_to rows]; by rewrite length_fmap|].
    intros r' [i Hi]%list_elem_of_lookup.
    cbn [padded_to rows] in Hi. rewrite list_lookup_fmap in Hi.
    destruct (rows scores !! i) as [r|] eqn:Hr; [|done].
    injection Hi as <-.
    pose proof (wf2_row _ _ _ Hwf Hr) as Hlen.
    rewrite H5 in *. rewrite H8.
    change (Z.to_nat 8 - 5) with 3. cbn [replicate].
    rewrite length_app, Hlen.
    rewrite !lookup_app_r by (rewrite Hlen; lia). rewrite Hlen.
    by repeat split.
Qed.
End PaddingClaim.

(** The padding of the scenario: five scores per example, eight columns. *)
Lemma pad_att_scores_fixed_width_witness :
  wf2 Scenario.raw_scores = true
  /\ exists padded,
       _pad_att_scores Scenario.decoder Scenario.raw_scores = Some padded
       /\ Z.of_nat (shape1 padded) = 8%Z.
Proof.
  split; [reflexivity|].
  destruct (pad_att_scores_fixed_width Scenario.demo_store
              Scenario.decoder Scenario.raw_scores eq_refl) as [Hpad _].
  destruct Hpad as (padded & Hp & _ & _ & Hw & _); [by vm_compute|].
  exists padded. by split.
Defined.

(** With [attention_inputs_max_len = 4] the five scores of the scenario do
    not fit: the padding is rejected, the step fails, and so does the
    decoding as a whole. *)
Example short_decoder_fails :
  _pad_att_scores Scenario.short_decoder Scenario.raw_scores = None
  /\ step Scenario.demo_store Scenario.short_decoder 0%Z
       Scenario.first_inputs Scenario.demo_state = None
  /\ _build Scenario.demo_super_build Scenario.short_decoder = None.
Proof. by vm_compute. Qed.

(** ** C2 and C10: the post-processing of [_build] *)

Section BuildClaims.
Context {T State : Type} `{Scalar T}.
Variable super_build
  : AttentionDecoder T State -> option (SequenceOutput T * State).
Implicit Type self : AttentionDecoder T State.

Lemma slice_axis2_wf n (t : Tensor3 T) :
  wf3 t = true -> n <= t3_shape2 t ->
  wf3 (slice_axis2 n t) = true /\ t3_shape2 (slice_axis2 n t) = n.
Proof.
  intros [Hn Hp]%wf3_spec Hle. split; [|cbn; lia].
  apply wf3_spec. cbn [slice_axis2 planes t3_shape0 t3_shape1 t3_shape2].
  split; [by rewrite length_fmap|].
  apply Forall_fmap. eapply Forall_impl; [exact Hp|].
  intros p [Hl Hr]. unfold compose. split; [by rewrite length_fmap|].
  apply Forall_fmap. eapply Forall_impl; [exact Hr|].
  intros r Hlen. unfold compose. cbn beta in Hlen.
  rewrite length_take. lia.
Qed.

Lemma slice_axis2_lookup n (t : Tensor3 T) i b p r :
  planes t !! i = Some p -> p !! b = Some r ->
  exists p', planes (slice_axis2 n t) !! i = Some p'
    /\ p' !! b = Some (take n r).
Proof.
  intros Hp Hr. exists (take n <$> p). cbn [slice_axis2 planes].
  rewrite !list_lookup_fmap, Hp, Hr. done.
Qed.

(** C2.  The size declared for the [attention_scores] of one step is
    [attention_inputs_max_len].  When the base loop has accumulated scores
    of that declared width and the configuration is valid (the source is
    no longer than [attention_inputs_max_len]), [_build] returns them
    sliced along the last axis to exactly the source length, the second
    axis of [attention_inputs]: every score row is the prefix of that
    length of the accumulated row. *)
Theorem build_slices_scores_to_source_length self outputs final_state :
  super_build self = Some (outputs, final_state) ->
  wf3 (attention_scores outputs) = true ->
  Z.of_nat (t3_shape2 (attention_scores outputs))
  = attention_scores (output_size self) ->
  (Z.of_nat (t3_shape1 (attention_inputs self))
   <= attention_inputs_max_len self)%Z ->
  let source_len := t3_shape1 (attention_inputs self) in
  attention_scores (output_size self) = attention_inputs_max_len self
  /\ exists outputs',
       _build super_build self = Some (outputs', final_state)
       /\ wf3 (attention_scores outputs') = true
       /\ t3_shape0 (attention_scores outputs')
          = t3_shape0 (attention_scores outputs)
       /\ t3_shape1 (attention_scores outputs')
          = t3_shape1 (attention_scores outputs)
       /\ t3_shape2 (attention_scores outputs') = source_len
       /\ forall i b p r,
            planes (attention_scores outputs) !! i = Some p ->
            p !! b = Some r ->
            exists p',
              planes (attention_scores outputs') !! i = Some p'
              /\ p' !! b = Some (take source_len r)
              /\ length (take source_len r) = source_len.
Proof.
  intros Hsuper Hwf Hwidth Hvalid source_len. split; [done|].
  cbn [output_size attention_scores] in Hwidth.
  assert (source_len <= t3_shape2 (attention_scores outputs))
    as Hle by (unfold source_len; lia).
  destruct (slice_axis2_wf source_len _ Hwf Hle) as [Hwf' Hw'].
  eexists. split.
  { unfold _build. rewrite Hsuper. cbn [mbind option_bind]. reflexivity. }
  cbn [_replace_attention_scores attention_scores].
  fold source_len. split; [done|]. split; [done|]. split; [done|].
  split; [done|].
  intros i b p r Hp Hr.
  destruct (slice_axis2_lookup source_len _ i b p r Hp Hr)
    as (p' & Hp' & Hr').
  exists p'. split; [done|]. split; [done|].
  apply wf3_spec in Hwf as [_ Hall].
  pose proof (Forall_lookup_1 _ _ _ _ Hall Hp) as [_ Hrows].
  pose proof (Forall_lookup_1 _ _ _ _ Hrows Hr) as Hlen.
  cbn beta in Hlen. rewrite length_take. lia.
Qed.

(** C10.  [_build] touches the [attention_scores] field only: the
    [logits], [predicted_ids], [cell_output] and [attention_context] of
    its result and the final state are those the base loop returned, and
    it returns whenever the base loop does. *)
Theorem build_frame self :
  (forall outputs final_state,
     super_build self = Some (outputs, final_state) ->
     exists outputs',
       _build super_build self = Some (outputs', final_state)
       /\ logits outputs' = logits outputs
       /\ predicted_ids outputs' = predicted_ids outputs
       /\ cell_output outputs' = cell_output outputs
       /\ attention_context outputs' = attention_context outputs)
  /\ (forall outputs' final_state',
        _build super_build self = Some (outputs', final_state') ->
        exists outputs,
          super_build self = Some (outputs, final_state')
          /\ logits outputs' = logits outputs
          /\ predicted_ids outputs' = predicted_ids outputs
          /\ cell_output outputs' = cell_output outputs
          /\ attention_context outputs' = attention_context outputs).
Proof.
  unfold _build. split.
  - intros outputs final_state ->. cbn [mbind option_bind].
    eexists. split; [reflexivity|]. by repeat split.
  - intros outputs' final_state' Hb.
    destruct (super_build self) as [[outputs final_state]|]; [|done].
    cbn [mbind option_bind] in Hb. injection Hb as <- <-.
    exists outputs. by repeat split.
Qed.
End BuildClaims.

(** The scenario, decoded by the base loop: three steps of a batch of two,
    scores of width 8 sliced to the source length 5. *)
Lemma build_slices_scores_to_source_length_witness :
  exists outputs' final_state,
    _build Scenario.demo_super_build Scenario.decoder
    = Some (outputs', final_state)
    /\ t3_shape0 (attention_scores outputs') = 3
    /\ t3_shape1 (attention_scores outputs') = 2
    /\ t3_shape2 (attention_scores outputs') = 5.
Proof.
  destruct (Scenario.demo_super_build Scenario.decoder)
    as [[outputs final_state]|] eqn:Hsuper; [|by vm_compute in Hsuper].
  pose proof Hsuper as Hval. vm_compute in Hval. injection Hval as Ho Hs.
  destruct (build_slices_scores_to_source_length Scenario.demo_super_build
              Scenario.decoder outputs final_state Hsuper)
    as (_ & outputs' & Hb & _ & H0 & H1 & H2 & _).
  - by rewrite <- Ho.
  - by rewrite <- Ho.
  - by vm_compute.
  - exists outputs', final_state. rewrite H0, H1, H2, <- Ho. by repeat split.
Defined.

Lemma build_frame_witness :
  exists outputs outputs' final_state,
    Scenario.demo_super_build Scenario.decoder = Some (outputs, final_state)
    /\ _build Scenario.demo_super_build Scenario.decoder
       = Some (outputs', final_state)
    /\ predicted_ids outputs' = [[8; 9]; [8; 9]; [8; 9]]%Z
    /\ predicted_ids outputs' = predicted_ids outputs.
Proof.
  destruct (Scenario.demo_super_build Scenario.decoder)
    as [[outputs final_state]|] eqn:Hsuper; [|by vm_compute in Hsuper].
  pose proof Hsuper as Hval. vm_compute in Hval. injection Hval as Ho Hs.
  destruct (build_frame Scenario.demo_super_build Scenario.decoder)
    as [Hframe _].
  destruct (Hframe outputs final_state Hsuper)
    as (outputs' & Hb & _ & Hids & _).
  exists outputs, outputs', final_state.
  split; [done|]. split; [done|]. split; [|done].
  by rewrite Hids, <- Ho.
Defined.

(** ** Concatenation and dense layers *)

Section LayerFacts.
Context {T : Type} `{Scalar T}.
Variable store : string -> LayerVars T.

Lemma tf_concat1_Some (a b c : Tensor2 T) :
  tf_concat1 a b = Some c ->
  shape0 a = shape0 b
  /\ shape0 c = shape0 a
  /\ shape1 c = shape1 a + shape1 b
  /\ rows c = zip_with app (rows a) (rows b).
Proof.
  unfold tf_concat1. case_decide; [|done]. by intros [= <-].
Qed.

Lemma tf_concat1_wf (a b c : Tensor2 T) :
  tf_concat1 a b = Some c -> wf2 a = true -> wf2 b = true ->
  wf2 c = true.
Proof.
  intros (Hs & H0 & H1 & Hr)%tf_concat1_Some
    [Hna Hra]%wf2_spec [Hnb Hrb]%wf2_spec.
  apply wf2_spec. rewrite Hr, H0, H1. split.
  - rewrite length_zip_with. lia.
  - apply Forall_forall. intros r [i Hi]%list_elem_of_lookup.
    apply lookup_zip_with_Some in Hi as (x & y & -> & Hx & Hy).
    rewrite length_app.
    pose proof (Forall_lookup_1 _ _ _ _ Hra Hx) as Hlx.
    pose proof (Forall_lookup_1 _ _ _ _ Hrb Hy) as Hly.
    cbn beta in Hlx, Hly. lia.
Qed.

(** Row [i] of a concatenation: the row of the left operand followed by
    the row of the right one. *)
Lemma tf_concat1_row (a b c : Tensor2 T) i r :
  tf_concat1 a b = Some c -> wf2 a = true ->
  rows c !! i = Some r ->
  rows a !! i = Some (take (shape1 a) r)
  /\ rows b !! i = Some (drop (shape1 a) r).
Proof.
  intros (_ & _ & _ & Hr)%tf_concat1_Some Hwf. rewrite Hr.
  intros (x & y & -> & Hx & Hy)%lookup_zip_with_Some.
  rewrite <- (wf2_row _ _ _ Hwf Hx).
  by rewrite take_app_length, drop_app_length.
Qed.

Lemma tf_concat1_lookup (a b c : Tensor2 T) i x y :
  tf_concat1 a b = Some c ->
  rows a !! i = Some x -> rows b !! i = Some y ->
  rows c !! i = Some (x ++ y).
Proof.
  intros (_ & _ & _ & Hr)%tf_concat1_Some Hx Hy. rewrite Hr.
  apply lookup_zip_with_Some. by exists x, y.
Qed.

(** Unit [j] of example [i] of a dense layer. *)
Lemma fully_connected_lookup (inputs : Tensor2 T) num_outputs act scope
    i x :
  rows inputs !! i = Some x ->
  exists y,
    rows (fully_connected store inputs num_outputs act scope) !! i
    = Some y
    /\ length y = num_outputs
    /\ forall j, j < num_outputs ->
         y !! j = Some (dense_unit (store scope) act x j).
Proof.
  intros Hx. eexists. split.
  { cbn [fully_connected rows]. by rewrite list_lookup_fmap, Hx. }
  split; [by rewrite length_fmap, length_seq|].
  intros j Hj. by rewrite list_lookup_fmap, lookup_seq_lt.
Qed.

End LayerFacts.

(** ** C3: the two dense layers of [compute_output] *)

Section ComputeOutputClaim.
Context {T State : Type} `{Scalar T}.
Variable store : string -> LayerVars T.
Implicit Type self : AttentionDecoder T State.

(** C3.  [compute_output] concatenates the cell output with the attention
    context of [attention_fn], maps the concatenation through the dense
    layer [attention_mix], whose activation is tanh and whose width is the
    output size of the cell, and maps that mixed vector through the dense
    layer [logits], which has no activation and whose width is
    [vocab_size].  Unit by unit: every mixed entry is the tanh of an
    affine form of the concatenated row, every logit is an affine form of
    the mixed row. *)
Theorem compute_output_layers self raw_cell_output mixed lg att ctx :
  compute_output store self raw_cell_output = Some (mixed, lg, att, ctx) ->
  let width := RNNCell.output_size (cell (base self)) in
  let mix_vars := store "attention_mix"%string in
  let logit_vars := store "logits"%string in
  attention_fn self raw_cell_output (attention_inputs self)
  = Some (att, ctx)
  /\ shape0 mixed = shape0 raw_cell_output
  /\ shape1 mixed = width
  /\ shape0 lg = shape0 raw_cell_output
  /\ shape1 lg = vocab_size self
  /\ forall i x c,
       rows raw_cell_output !! i = Some x ->
       rows ctx !! i = Some c ->
       exists m l,
         rows mixed !! i = Some m
         /\ rows lg !! i = Some l
         /\ length m = width
         /\ length l = vocab_size self
         /\ (forall j, j < width ->
               m !! j
               = Some (tanh (add (dot_from 0 (x ++ c)
                                    (fun k => weights mix_vars k j))
                               (biases mix_vars j))))
         /\ (forall j, j < vocab_size self ->
               l !! j
               = Some (add (dot_from 0 m (fun k => weights logit_vars k j))
                         (biases logit_vars j))).
Proof.
  intros Hout width mix_vars logit_vars.
  destruct (compute_output_Some_inv store _ _ _ _ _ _ Hout)
    as (mix_inputs & Hatt & Hcat & -> & ->).
  pose proof (tf_concat1_Some _ _ _ Hcat) as (_ & Hs0 & _ & _).
  split; [done|]. split; [done|]. split; [done|]. split; [done|].
  split; [done|].
  intros i x c Hx Hc.
  pose proof (tf_concat1_lookup _ _ _ i x c Hcat Hx Hc) as Hxc.
  destruct (fully_connected_lookup store mix_inputs width (Some tanh)
              "attention_mix" i (x ++ c) Hxc) as (m & Hm & Hlm & Hmj).
  destruct (fully_connected_lookup store
              (fully_connected store mix_inputs width (Some tanh)
                 "attention_mix")
              (vocab_size self) None "logits" i m Hm)
    as (l & Hl & Hll & Hlj).
  exists m, l. by repeat split.
Qed.
End ComputeOutputClaim.

(** The first step of the scenario: a cell output of width 4 and a context
    of width 3 give a mixed vector of width 4 and 10 logits. *)
Lemma compute_output_layers_witness :
  exists mixed lg att ctx,
    compute_output Scenario.demo_store Scenario.decoder Scenario.demo_state
    = Some (mixed, lg, att, ctx)
    /\ shape1 mixed = 4 /\ shape1 lg = 10.
Proof.
  destruct (compute_output Scenario.demo_store Scenario.decoder
              Scenario.demo_state) as [[[[mixed lg] att] ctx]|] eqn:Hout;
    [|by vm_compute in Hout].
  destruct (compute_output_layers _ _ _ _ _ _ _ Hout)
    as (_ & _ & Hm & _ & Hl & _).
  by exists mixed, lg, att, ctx.
Defined.

(** ** C4: the first input *)

Section InitializeClaim.
Context {T State : Type} `{Scalar T}.
Implicit Type self : AttentionDecoder T State.

Lemma tf_zeros_wf n m : wf2 (tf_zeros (T:=T) n m) = true.
Proof.
  apply wf2_spec. cbn [tf_zeros rows shape0 shape1].
  split; [by rewrite length_replicate|].
  apply Forall_replicate. by rewrite length_replicate.
Qed.

(** C4.  [initialize] calls the input function at time 0 with the
    initial flag and no predictions.  It returns the finished flags of
    that call, the initial recurrent state, and as first input the
    vector of the input function followed by a block of zeros as wide as
    the feature axis (the third) of [attention_inputs]: the width is the
    raw input width plus the feature width, and the trailing block is all
    zeros.  It returns exactly when the input function does. *)
Theorem initialize_appends_zero_context self :
  (forall raw finished,
     input_fn (base self) 0%Z true None = Some (raw, finished) ->
     wf2 raw = true ->
     exists first_inputs,
       initialize self
       = Some (finished, first_inputs, initial_state (base self))
       /\ wf2 first_inputs = true
       /\ shape0 first_inputs = shape0 raw
       /\ shape1 first_inputs
          = shape1 raw + t3_shape2 (attention_inputs self)
       /\ length (rows first_inputs) = length (rows raw)
       /\ forall i r, rows first_inputs !! i = Some r ->
            length r = shape1 raw + t3_shape2 (attention_inputs self)
            /\ rows raw !! i = Some (take (shape1 raw) r)
            /\ drop (shape1 raw) r
               = replicate (t3_shape2 (attention_inputs self)) zero)
  /\ (forall finished first_inputs state,
        initialize self = Some (finished, first_inputs, state) ->
        state = initial_state (base self)
        /\ exists raw,
             input_fn (base self) 0%Z true None = Some (raw, finished))
  /\ (input_fn (base self) 0%Z true None = None ->
      initialize self = None).
Proof.
  unfold initialize. split; [|split].
  - intros raw finished -> Hwf. cbn [mbind option_bind].
    set (feat := t3_shape2 (attention_inputs self)).
    destruct (tf_concat1 raw (tf_zeros (shape0 raw) feat))
      as [first_inputs|] eqn:Hcat.
    2:{ unfold tf_concat1 in Hcat. cbn [tf_zeros shape0] in Hcat.
        by case_decide. }
    cbn [mbind option_bind]. exists first_inputs. split; [done|].
    pose proof (tf_concat1_wf _ _ _ Hcat Hwf (tf_zeros_wf _ _)) as Hwf'.
    pose proof (tf_concat1_Some _ _ _ Hcat) as (_ & Hs0 & Hs1 & Hrows).
    split; [done|]. split; [done|]. split; [done|]. split.
    { apply wf2_spec in Hwf as [Hn _]. rewrite Hrows, length_zip_with.
      cbn [tf_zeros rows]. rewrite length_replicate. lia. }
    intros i r Hi.
    pose proof (wf2_row _ _ _ Hwf' Hi) as Hlen.
    destruct (tf_concat1_row _ _ _ i r Hcat Hwf Hi) as [Hraw Hzero].
    split; [by rewrite Hlen, Hs1|]. split; [done|].
    cbn [tf_zeros rows] in Hzero.
    apply lookup_replicate in Hzero as [Hzero _]. done.
  - intros finished first_inputs state Hinit.
    destruct (input_fn (base self) 0%Z true None) as [[raw fin]|];
      [|done].
    cbn [mbind option_bind] in Hinit.
    destruct (tf_concat1 _ _) as [first|]; [|done].
    cbn [mbind option_bind] in Hinit. injection Hinit as <- <- <-.
    split; [done|]. by exists raw.
  - by intros ->.
Qed.
End InitializeClaim.

(** In the scenario the start tokens have width 1 and the encodings width
    3: the first input has width 4 and ends in three zeros. *)
Lemma initialize_appends_zero_context_witness :
  exists first_inputs,
    initialize Scenario.decoder
    = Some ([false; false], first_inputs, Scenario.demo_state)
    /\ shape1 first_inputs = 4
    /\ forall r, r ∈ rows first_inputs -> drop 1 r = [0; 0; 0]%Q.
Proof.
  destruct (initialize_appends_zero_context Scenario.decoder)
    as (Hinit & _ & _).
  destruct (Hinit (mkTensor2 2 1 [[1]; [2]]%Q) [false; false]
              eq_refl eq_refl) as (first_inputs & Hfirst & _ & _ & Hw & _ & Hr).
  exists first_inputs. split; [done|]. split; [done|].
  intros r [i Hi]%list_elem_of_lookup.
  destruct (Hr i r Hi) as (_ & _ & Hzero). exact Hzero.
Defined.

(** ** C5 and C9: what a step hands on *)

Section StepClaims.
Context {T State : Type} `{Scalar T}.
Variable store : string -> LayerVars T.
Implicit Type self : AttentionDecoder T State.

(** C5.  The next input that [step] returns is the raw input that the
    input function gives for time [time_ + 1] and the outputs assembled
    in this step, followed by the attention context of this step, the one
    [attention_fn] computed from this step's cell output: its trailing
    block is that context, which the next step therefore receives. *)
Theorem step_next_inputs_carry_context self time_ inputs state outputs
    cell_state next_inputs finished :
  step store self time_ inputs state
  = Some (outputs, cell_state, next_inputs, finished) ->
  exists raw_next raw_cell_output att,
    input_fn (base self) (time_ + 1)%Z false (Some outputs)
    = Some (raw_next, finished)
    /\ RNNCell.call (cell (base self)) inputs state
       = Some (raw_cell_output, cell_state)
    /\ attention_fn self raw_cell_output (attention_inputs self)
       = Some (att, attention_context outputs)
    /\ tf_concat1 raw_next (attention_context outputs) = Some next_inputs
    /\ shape1 next_inputs
       = shape1 raw_next + shape1 (attention_context outputs)
    /\ (wf2 raw_next = true ->
        forall i r, rows next_inputs !! i = Some r ->
          rows raw_next !! i = Some (take (shape1 raw_next) r)
          /\ rows (attention_context outputs) !! i
             = Some (drop (shape1 raw_next) r)).
Proof.
  intros (co & mixed & lg & att & ctx & padded & scores & ids & raw_next
          & Hcell & Hout & _ & _ & _ & -> & Hin & Hcat)%step_Some_inv.
  destruct (compute_output_Some_inv store _ _ _ _ _ _ Hout)
    as (mix_inputs & Hatt & _).
  cbn [attention_context].
  exists raw_next, co, att. split; [done|]. split; [done|].
  split; [done|]. split; [done|].
  pose proof (tf_concat1_Some _ _ _ Hcat) as (_ & _ & Hs1 & _).
  split; [done|].
  intros Hwf i r Hi. by apply (tf_concat1_row _ _ _ i r Hcat Hwf).
Qed.

(** C9.  The [cell_output] field that [step] emits is the output of the
    [attention_mix] layer, the tanh-mixed projection of the raw cell
    output and the attention context, and not the raw cell output; the
    state that [step] returns is the state the cell produced. *)
Theorem step_emits_mixed_cell_output self time_ inputs state outputs
    cell_state next_inputs finished :
  step store self time_ inputs state
  = Some (outputs, cell_state, next_inputs, finished) ->
  let width := RNNCell.output_size (cell (base self)) in
  let mix_vars := store "attention_mix"%string in
  exists raw_cell_output,
    RNNCell.call (cell (base self)) inputs state
    = Some (raw_cell_output, cell_state)
    /\ shape1 (cell_output outputs) = width
    /\ logits outputs
       = fully_connected store (cell_output outputs) (vocab_size self)
           None "logits"
    /\ forall i x c,
         rows raw_cell_output !! i = Some x ->
         rows (attention_context outputs) !! i = Some c ->
         exists m,
           rows (cell_output outputs) !! i = Some m
           /\ length m = width
           /\ forall j, j < width ->
                m !! j
                = Some (tanh (add (dot_from 0 (x ++ c)
                                     (fun k => weights mix_vars k j))
                                (biases mix_vars j))).
Proof.
  intros (co & mixed & lg & att & ctx & padded & scores & ids & raw_next
          & Hcell & Hout & _ & _ & _ & -> & _ & _)%step_Some_inv
    width mix_vars.
  cbn [cell_output attention_context logits].
  exists co. split; [done|].
  destruct (compute_output_Some_inv store _ _ _ _ _ _ Hout)
    as (mix_inputs & _ & Hcat & -> & Hlg).
  split; [done|]. split; [done|].
  intros i x c Hx Hc.
  pose proof (tf_concat1_lookup _ _ _ i x c Hcat Hx Hc) as Hxc.
  destruct (fully_connected_lookup store mix_inputs width (Some tanh)
              "attention_mix" i (x ++ c) Hxc) as (m & Hm & Hlm & Hmj).
  by exists m.
Qed.
End StepClaims.

(** ** The loop hands the next input on *)

Section LoopFacts.
Context {T State : Type}.
Variable step : Z -> Tensor2 T -> State
                -> option (StepOutput T * State * Tensor2 T * list bool).

(** In the loop of the base class, the input of the step at time
    [time_ + 1] is the next input that the step at [time_] returned, so by
    C5 its trailing block is the attention context of the step before. *)
Lemma decode_steps_feeds_next_inputs fuel time_ inputs state finished
    outputs rest final_state :
  decode_steps step (S fuel) time_ inputs state finished
  = Some (outputs :: rest, final_state) ->
  exists state' next_inputs finished',
    step time_ inputs state
    = Some (outputs, state', next_inputs, finished')
    /\ decode_steps step fuel (time_ + 1)%Z next_inputs state' finished'
       = Some (rest, final_state).
Proof.
  cbn [decode_steps]. destruct (forallb id finished); [done|].
  destruct (step time_ inputs state)
    as [[[[outputs' state'] next_inputs] finished']|]; [|done].
  cbn [mbind option_bind].
  destruct (decode_steps step fuel (time_ + 1)%Z next_inputs state'
              finished') as [[rest' final']|] eqn:Hrest; [|done].
  cbn [mbind option_bind]. intros [= <- <- <-].
  by exists state', next_inputs, finished'.
Qed.
End LoopFacts.

(** The first step of the scenario. *)
Lemma step_next_inputs_carry_context_witness :
  exists outputs cell_state next_inputs finished,
    step Scenario.demo_store Scenario.decoder 0%Z Scenario.first_inputs
      Scenario.demo_state
    = Some (outputs, cell_state, next_inputs, finished)
    /\ shape1 next_inputs = 1 + shape1 (attention_context outputs)
    /\ forall i r, rows next_inputs !! i = Some r ->
         rows (attention_context outputs) !! i = Some (drop 1 r).
Proof.
  destruct (step Scenario.demo_store Scenario.decoder 0%Z
              Scenario.first_inputs Scenario.demo_state)
    as [[[[outputs cell_state] next_inputs] finished]|] eqn:Hstep;
    [|by vm_compute in Hstep].
  destruct (step_next_inputs_carry_context _ _ _ _ _ _ _ _ _ Hstep)
    as (raw_next & co & att & Hin & _ & _ & _ & Hw & Hrows).
  pose proof Hstep as Hval. vm_compute in Hval.
  injection Hval as Ho Hs Hn Hf. rewrite <- Ho in Hin.
  vm_compute in Hin. injection Hin as Hraw _.
  exists outputs, cell_state, next_inputs, finished.
  split; [done|]. rewrite <- Hraw in Hw, Hrows.
  split; [exact Hw|].
  intros i r Hi. by destruct (Hrows eq_refl i r Hi).
Defined.

Lemma step_emits_mixed_cell_output_witness :
  exists outputs cell_state next_inputs finished raw_cell_output,
    step Scenario.demo_store Scenario.decoder 0%Z Scenario.first_inputs
      Scenario.demo_state
    = Some (outputs, cell_state, next_inputs, finished)
    /\ RNNCell.call Scenario.demo_cell Scenario.first_inputs
         Scenario.demo_state
       = Some (raw_cell_output, cell_state)
    /\ shape1 (cell_output outputs) = 4.
Proof.
  destruct (step Scenario.demo_store Scenario.decoder 0%Z
              Scenario.first_inputs Scenario.demo_state)
    as [[[[outputs cell_state] next_inputs] finished]|] eqn:Hstep;
    [|by vm_compute in Hstep].
  destruct (step_emits_mixed_cell_output _ _ _ _ _ _ _ _ _ Hstep)
    as (co & Hcell & Hw & _).
  by exists outputs, cell_state, next_inputs, finished, co.
Defined.

(** In the scenario the emitted [cell_output] is indeed another tensor than
    the raw output of the cell. *)
Example step_cell_output_differs :
  exists outputs cell_state next_inputs finished raw_cell_output,
    step Scenario.demo_store Scenario.decoder 0%Z Scenario.first_inputs
      Scenario.demo_state
    = Some (outputs, cell_state, next_inputs, finished)
    /\ RNNCell.call Scenario.demo_cell Scenario.first_inputs
         Scenario.demo_state
       = Some (raw_cell_output, cell_state)
    /\ cell_output outputs <> raw_cell_output.
Proof.
  do 5 eexists. split; [vm_compute; reflexivity|].
  split; [vm_compute; reflexivity|]. discriminate.
Qed.

(** ** C6 and C7: reversing the scores *)

Section ReverseFacts.
Context {T : Type} `{Scalar T}.

Lemma reverse_prefix_length n (r : list T) :
  length (reverse_prefix n r) = length r.
Proof.
  unfold reverse_prefix.
  rewrite length_app, length_reverse, length_take, length_drop. lia.
Qed.

(** Inside the prefix the order is mirrored. *)
Lemma reverse_prefix_lookup_lt n (r : list T) j :
  n <= length r -> j < n ->
  reverse_prefix n r !! j = r !! (n - S j).
Proof.
  intros Hn Hj. unfold reverse_prefix.
  assert (length (take n r) = n) as Hlen by (rewrite length_take; lia).
  rewrite lookup_app_l by (rewrite length_reverse; lia).
  rewrite reverse_lookup by lia. rewrite Hlen.
  apply lookup_take_lt. lia.
Qed.

(** Beyond the prefix nothing moves. *)
Lemma reverse_prefix_lookup_ge n (r : list T) j :
  n <= j -> reverse_prefix n r !! j = r !! j.
Proof.
  intros Hj. unfold reverse_prefix.
  destruct (decide (n <= length r)) as [Hn|Hn].
  - rewrite lookup_app_r by (rewrite length_reverse, length_take; lia).
    rewrite length_reverse, length_take, lookup_drop. f_equal. lia.
  - rewrite drop_ge, app_nil_r by lia.
    rewrite !lookup_ge_None_2; [done|lia|].
    rewrite length_reverse, length_take. lia.
Qed.

Lemma reverse_prefix_involutive n (r : list T) :
  reverse_prefix n (reverse_prefix n r) = r.
Proof.
  unfold reverse_prefix.
  destruct (decide (n <= length r)) as [Hn|Hn].
  - assert (length (reverse (take n r)) = n) as Hlen
      by (rewrite length_reverse, length_take; lia).
    rewrite take_app_length', drop_app_length' by done.
    by rewrite reverse_involutive, take_drop.
  - rewrite (drop_ge r), app_nil_r by lia.
    rewrite (take_ge r) by lia.
    rewrite take_ge, drop_ge by (rewrite length_reverse; lia).
    by rewrite reverse_involutive, app_nil_r.
Qed.

Lemma tf_reverse_sequence_Some (input output : Tensor2 T) seq_lengths :
  tf_reverse_sequence input seq_lengths = Some output ->
  length seq_lengths = shape0 input
  /\ Forall (fun n => (0 <= n <= Z.of_nat (shape1 input))%Z) seq_lengths
  /\ output = mkTensor2 (shape0 input) (shape1 input)
                (zip_with (fun r n => reverse_prefix (Z.to_nat n) r)
                   (rows input) seq_lengths).
Proof.
  unfold tf_reverse_sequence.
  destruct (bool_decide _ && forallb _ _) eqn:Hok; [|done].
  intros [= <-]. apply andb_true_iff in Hok as [Hlen Hall].
  rewrite bool_decide_eq_true in Hlen. split; [done|]. split; [|done].
  apply Forall_forall. intros n Hn%list_elem_of_In.
  rewrite forallb_forall in Hall.
  by eapply bool_decide_eq_true_1, Hall.
Qed.

Lemma tf_reverse_sequence_is_Some (input : Tensor2 T) seq_lengths :
  length seq_lengths = shape0 input ->
  Forall (fun n => (0 <= n <= Z.of_nat (shape1 input))%Z) seq_lengths ->
  tf_reverse_sequence input seq_lengths
  = Some (mkTensor2 (shape0 input) (shape1 input)
            (zip_with (fun r n => reverse_prefix (Z.to_nat n) r)
               (rows input) seq_lengths)).
Proof.
  intros Hlen Hall. unfold tf_reverse_sequence.
  rewrite bool_decide_eq_true_2 by done.
  replace (forallb _ seq_lengths) with true; [done|].
  symmetry. apply forallb_forall. intros n Hn%list_elem_of_In.
  rewrite Forall_forall in Hall. by apply bool_decide_eq_true_2, Hall.
Qed.

(** Reversing twice with the same lengths gives the tensor back. *)
Lemma tf_reverse_sequence_involutive (input output : Tensor2 T)
    seq_lengths :
  wf2 input = true ->
  tf_reverse_sequence input seq_lengths = Some output ->
  tf_reverse_sequence output seq_lengths = Some input.
Proof.
  intros [Hn _]%wf2_spec (Hlen & Hall & ->)%tf_reverse_sequence_Some.
  rewrite tf_reverse_sequence_is_Some by done.
  cbn [shape0 shape1 rows]. destruct input as [n0 n1 rs].
  cbn [shape0 shape1 rows] in *. do 2 f_equal.
  apply list_eq. intros i.
  rewrite !lookup_zip_with.
  destruct (rs !! i) as [r|] eqn:Hr; [|done]. cbn [mbind option_bind].
  destruct (seq_lengths !! i) as [n|] eqn:Hi; cbn [mbind option_bind].
  - by rewrite reverse_prefix_involutive.
  - apply lookup_lt_Some in Hr. apply lookup_ge_None in Hi. lia.
Qed.
End ReverseFacts.

Section ReverseClaims.
Context {T State : Type} `{Scalar T}.
Variable store : string -> LayerVars T.
Implicit Type self : AttentionDecoder T State.

(** A padding that succeeded had room, and is the padding to
    [attention_inputs_max_len]. *)
Lemma pad_att_scores_Some_inv self (att padded : Tensor2 T) :
  _pad_att_scores self att = Some padded ->
  (Z.of_nat (shape1 att) <= attention_inputs_max_len self)%Z
  /\ padded = padded_to (attention_inputs_max_len self) att.
Proof.
  intros Hpad.
  destruct (decide (Z.of_nat (shape1 att)
                    <= attention_inputs_max_len self)%Z) as [Hle|Hgt].
  - split; [done|]. rewrite pad_att_scores_Some in Hpad by done.
    by injection Hpad.
  - rewrite pad_att_scores_None in Hpad by lia. done.
Qed.

(** C6.  With [reverse_scores_lengths] given, the scores a step emits
    are the padded scores with, for every example, the entries before
    that example's length in mirrored order and the entries at or beyond
    it where they were; without [reverse_scores_lengths] the step emits
    the padded scores as they are. *)
Theorem step_reverses_scores_up_to_length self time_ inputs state outputs
    cell_state next_inputs finished :
  step store self time_ inputs state
  = Some (outputs, cell_state, next_inputs, finished) ->
  exists raw_cell_output mixed lg att padded,
    RNNCell.call (cell (base self)) inputs state
    = Some (raw_cell_output, cell_state)
    /\ compute_output store self raw_cell_output
       = Some (mixed, lg, att, attention_context outputs)
    /\ _pad_att_scores self att = Some padded
    /\ match reverse_scores_lengths self with
       | None => attention_scores outputs = padded
       | Some seq_lengths =>
           shape0 (attention_scores outputs) = shape0 padded
           /\ shape1 (attention_scores outputs) = shape1 padded
           /\ length seq_lengths = shape0 padded
           /\ (wf2 att = true ->
               length (rows (attention_scores outputs))
               = length (rows padded)
               /\ forall i r n,
                    rows padded !! i = Some r ->
                    seq_lengths !! i = Some n ->
                    (0 <= n <= Z.of_nat (length r))%Z
                    /\ exists r',
                         rows (attention_scores outputs) !! i = Some r'
                         /\ length r' = length r
                         /\ (forall j, j < Z.to_nat n ->
                               r' !! j = r !! (Z.to_nat n - S j))
                         /\ (forall j, Z.to_nat n <= j ->
                               r' !! j = r !! j))
       end.
Proof.
  intros (co & mixed & lg & att & ctx & padded & scores & ids & raw_next
          & Hcell & Hout & Hpad & Hrev & _ & -> & _ & _)%step_Some_inv.
  cbn [attention_context attention_scores].
  exists co, mixed, lg, att, padded.
  split; [done|]. split; [done|]. split; [done|].
  destruct (reverse_scores_lengths self) as [seq_lengths|];
    [|by injection Hrev].
  apply tf_reverse_sequence_Some in Hrev as (Hlen & Hall & ->).
  cbn [shape0 shape1 rows].
  split; [done|]. split; [done|]. split; [done|].
  intros Hwf.
  destruct (pad_att_scores_Some_inv _ _ _ Hpad) as [Hle ->].
  pose proof (padded_to_wf _ _ Hwf Hle) as Hwfp.
  split.
  { apply wf2_spec in Hwfp as [Hn _].
    rewrite length_zip_with. lia. }
  intros i r n Hr Hn.
  pose proof (wf2_row _ _ _ Hwfp Hr) as Hlr.
  pose proof (Forall_lookup_1 _ _ _ _ Hall Hn) as Hrange.
  cbn beta in Hrange. split; [by rewrite Hlr|].
  exists (reverse_prefix (Z.to_nat n) r).
  split; [apply lookup_zip_with_Some; by exists r, n|].
  split; [apply reverse_prefix_length|]. split.
  - intros j Hj. apply reverse_prefix_lookup_lt; lia.
  - intros j Hj. by apply reverse_prefix_lookup_ge.
Qed.

(** C7.  Reversing padded scores with every example's length set to the
    full source length, and reversing the result again in the same way,
    gives the padded scores back. *)
Theorem reverse_scores_round_trip self (att padded : Tensor2 T) :
  wf2 att = true ->
  _pad_att_scores self att = Some padded ->
  let full_lengths := replicate (shape0 att) (Z.of_nat (shape1 att)) in
  exists reversed,
    tf_reverse_sequence padded full_lengths = Some reversed
    /\ tf_reverse_sequence reversed full_lengths = Some padded.
Proof.
  intros Hwf Hpad full_lengths.
  destruct (pad_att_scores_Some_inv _ _ _ Hpad) as [Hle ->].
  pose proof (padded_to_wf _ _ Hwf Hle) as Hwfp.
  eexists. split.
  - apply tf_reverse_sequence_is_Some.
    + unfold full_lengths. by rewrite length_replicate.
    + apply Forall_replicate. cbn [padded_to shape1]. lia.
  - apply tf_reverse_sequence_involutive; [done|].
    apply tf_reverse_sequence_is_Some.
    + unfold full_lengths. by rewrite length_replicate.
    + apply Forall_replicate. cbn [padded_to shape1]. lia.
Qed.
End ReverseClaims.

(** The scenario with lengths 5 and 3: the second example keeps its last
    two scores, and the zero padding, in place. *)
Lemma step_reverses_scores_up_to_length_witness :
  exists outputs cell_state next_inputs finished,
    step Scenario.demo_store Scenario.reversing_decoder 0%Z
      Scenario.first_inputs Scenario.demo_state
    = Some (outputs, cell_state, next_inputs, finished)
    /\ shape1 (attention_scores outputs) = 8
    /\ rows (attention_scores outputs)
       = [[1; 2; 0; 1; 1; 0; 0; 0]; [5; 0; 7; 4; 3; 0; 0; 0]]%Q.
Proof.
  destruct (step Scenario.demo_store Scenario.reversing_decoder 0%Z
              Scenario.first_inputs Scenario.demo_state)
    as [[[[outputs cell_state] next_inputs] finished]|] eqn:Hstep;
    [|by vm_compute in Hstep].
  destruct (step_reverses_scores_up_to_length _ _ _ _ _ _ _ _ _ Hstep)
    as (co & mixed & lg & att & padded & _ & _ & _ & Hrev).
  exists outputs, cell_state, next_inputs, finished.
  split; [done|].
  vm_compute in Hstep. injection Hstep as <- _ _ _. by split.
Defined.

Lemma reverse_scores_round_trip_witness :
  exists padded reversed,
    _pad_att_scores Scenario.decoder Scenario.raw_scores = Some padded
    /\ tf_reverse_sequence padded [5; 5]%Z = Some reversed
    /\ rows reversed
       = [[1; 2; 0; 1; 1; 0; 0; 0]; [3; 4; 5; 0; 7; 0; 0; 0]]%Q
    /\ tf_reverse_sequence reversed [5; 5]%Z = Some padded.
Proof.
  destruct (_pad_att_scores Scenario.decoder Scenario.raw_scores)
    as [padded|] eqn:Hpad; [|by vm_compute in Hpad].
  destruct (reverse_scores_round_trip Scenario.decoder Scenario.raw_scores
              padded eq_refl Hpad) as (reversed & Hrev & Hback).
  exists padded, reversed. split; [done|].
  change (replicate _ _) with [5; 5]%Z in Hrev, Hback.
  split; [done|]. split; [|done].
  vm_compute in Hpad. injection Hpad as <-.
  vm_compute in Hrev. by injection Hrev as <-.
Defined.

(** ** C8: the default prediction *)

Section ArgmaxFacts.
Context {T : Type} `{Scalar T}.

(** The comparison is a strict order. *)
Hypothesis ltb_trans :
  forall a b c : T, ltb a b = true -> ltb b c = true -> ltb a c = true.
Hypothesis ltb_irrefl : forall a : T, ltb a a = false.

(** The scan keeps the index of an entry that nothing seen so far
    exceeds. *)
Lemma argmax_from_spec (l pre : list T) best_i best i :
  length pre = i ->
  pre !! best_i = Some best ->
  (forall y, y ∈ pre -> ltb best y = false) ->
  exists m,
    (pre ++ l) !! argmax_from best_i best i l = Some m
    /\ forall y, y ∈ pre ++ l -> ltb m y = false.
Proof.
  revert pre best_i best i.
  induction l as [|x l IH]; intros pre best_i best i Hlen Hbest Hmax.
  - rewrite app_nil_r. by exists best.
  - cbn [argmax_from].
    replace (pre ++ x :: l) with ((pre ++ [x]) ++ l)
      by (by rewrite <- app_assoc).
    destruct (ltb best x) eqn:Hlt.
    + apply IH.
      * rewrite length_app. cbn. lia.
      * subst i. apply list_lookup_middle. done.
      * intros y [Hy|Hy%list_elem_of_singleton]%elem_of_app.
        -- destruct (ltb x y) eqn:Hxy; [|done].
           rewrite <- (Hmax y Hy). symmetry. by eapply ltb_trans.
        -- subst y. apply ltb_irrefl.
    + apply IH.
      * rewrite length_app. cbn. lia.
      * apply lookup_app_l_Some. done.
      * intros y [Hy|Hy%list_elem_of_singleton]%elem_of_app.
        -- by apply Hmax.
        -- by subst y.
Qed.

Lemma argmax_row_spec (l : list T) id :
  argmax_row l = Some id ->
  (0 <= id < Z.of_nat (length l))%Z
  /\ exists m, l !! Z.to_nat id = Some m
               /\ forall y, y ∈ l -> ltb m y = false.
Proof.
  destruct l as [|x l]; [done|]. intros [= <-].
  destruct (argmax_from_spec l [x] 0 x 1 eq_refl eq_refl)
    as (m & Hm & Hmax).
  { intros y ->%list_elem_of_singleton. apply ltb_irrefl. }
  cbn [app] in Hm, Hmax. rewrite Nat2Z.id.
  pose proof (lookup_lt_Some _ _ _ Hm) as Hlt.
  split; [lia|]. by exists m.
Qed.

Lemma tf_argmax1_spec (logits : Tensor2 T) ids :
  tf_argmax1 logits = Some ids ->
  length ids = length (rows logits)
  /\ forall i l, rows logits !! i = Some l ->
       exists id m,
         ids !! i = Some id
         /\ (0 <= id < Z.of_nat (length l))%Z
         /\ l !! Z.to_nat id = Some m
         /\ forall y, y ∈ l -> ltb m y = false.
Proof.
  unfold tf_argmax1. intros Hall%mapM_Some_1.
  split; [symmetry; by eapply Forall2_length|].
  intros i l Hl.
  destruct (Forall2_lookup_l _ _ _ _ _ Hall Hl) as (id & Hid & Harg).
  destruct (argmax_row_spec l id Harg) as (Hrange & m & Hm & Hmax).
  by exists id, m.
Qed.
End ArgmaxFacts.

Section PredictionClaim.
Context {T State : Type} `{Scalar T}.
Variable store : string -> LayerVars T.

(** C8.  A decoder constructed without a [prediction_fn] predicts by
    arg-max: the id a step emits for an example is an index into that
    example's logits, and no logit exceeds the one at that index.  For
    three logits of which the second is above the first and not below the
    third, as in [0.1, 0.9, 0.0], the prediction is index 1. *)
Theorem default_prediction_is_argmax
    (cell : RNNCell.t T State)
    (input_fn : Z -> bool -> option (StepOutput T)
                -> option (Tensor2 T * list bool))
    (initial_state : State) (vocab_size : nat)
    (attention_inputs : Tensor3 T)
    (attention_fn : Tensor2 T -> Tensor3 T
                    -> option (Tensor2 T * Tensor2 T))
    (max_decode_length : Z)
    (reverse_scores_lengths : option (list Z))
    (attention_inputs_max_len : option Z) (name : option string) :
  (forall a b c : T, ltb a b = true -> ltb b c = true -> ltb a c = true) ->
  (forall a : T, ltb a a = false) ->
  let self :=
    __init__ cell input_fn initial_state vocab_size attention_inputs
      attention_fn max_decode_length reverse_scores_lengths
      attention_inputs_max_len None name in
  (forall time_ inputs state outputs cell_state next_inputs finished,
     step store self time_ inputs state
     = Some (outputs, cell_state, next_inputs, finished) ->
     length (predicted_ids outputs) = length (rows (logits outputs))
     /\ forall i l, rows (logits outputs) !! i = Some l ->
          exists id m,
            predicted_ids outputs !! i = Some id
            /\ (0 <= id < Z.of_nat (length l))%Z
            /\ l !! Z.to_nat id = Some m
            /\ forall y, y ∈ l -> ltb m y = false)
  /\ (forall x0 x1 x2 : T,
        ltb x0 x1 = true -> ltb x1 x2 = false ->
        prediction_fn (base self) (mkTensor2 1 3 [[x0; x1; x2]])
        = Some [1%Z]).
Proof.
  intros Htrans Hirrefl self. split.
  - intros time_ inputs state outputs cell_state next_inputs finished
      (co & mixed & lg & att & ctx & padded & scores & ids & raw_next
       & _ & _ & _ & _ & Hpred & -> & _ & _)%step_Some_inv.
    cbn [predicted_ids logits].
    by apply (tf_argmax1_spec Htrans Hirrefl).
  - intros x0 x1 x2 H01 H12. cbn. by rewrite H01, H12.
Qed.
End PredictionClaim.

(** The rationals are strictly ordered by the comparison of the
    scenario. *)
Lemma Q_ltb_trans (a b c : Q) :
  ltb a b = true -> ltb b c = true -> ltb a c = true.
Proof.
  cbn. rewrite !negb_true_iff. intros Hab Hbc.
  destruct (Qle_bool c a) eqn:Hca; [|done].
  apply Qle_bool_iff in Hca.
  assert (~ (b <= a)%Q) as Hab'
    by (intros Hle%Qle_bool_iff; congruence).
  assert (~ (c <= b)%Q) as Hbc'
    by (intros Hle%Qle_bool_iff; congruence).
  apply Qnot_le_lt in Hab', Hbc'.
  exfalso. apply (Qlt_irrefl a).
  eapply Qlt_trans; [exact Hab'|]. eapply Qlt_le_trans; eauto.
Qed.

Lemma Q_ltb_irrefl (a : Q) : ltb a a = false.
Proof.
  cbn. apply negb_false_iff, Qle_bool_iff, Qle_refl.
Qed.

(** The logits of the spec: [0.1, 0.9, 0.0] gives index 1. *)
Lemma default_prediction_is_argmax_witness :
  prediction_fn (base Scenario.decoder)
    (mkTensor2 1 3 [[1 # 10; 9 # 10; 0]]%Q)
  = Some [1%Z].
Proof.
  destruct (default_prediction_is_argmax Scenario.demo_store
              Scenario.demo_cell Scenario.demo_input_fn Scenario.demo_state
              10 Scenario.encoder_outputs Scenario.demo_attention 6%Z None
              (Some 8%Z) None Q_ltb_trans Q_ltb_irrefl) as [_ Hexample].
  exact (Hexample (1 # 10)%Q (9 # 10)%Q 0%Q eq_refl eq_refl).
Defined.

(** * Further properties *)

(** ** The shape contract of a step *)

Section ShapeContract.
Context {T State : Type} `{Scalar T}.
Variable store : string -> LayerVars T.
Implicit Type self : AttentionDecoder T State.


End ShapeContract.


(** ** Padding and slicing undo each other *)

Section PadSlice.
Context {T State : Type} `{Scalar T}.
Variable super_build
  : AttentionDecoder T State -> option (SequenceOutput T * State).
Implicit Type self : AttentionDecoder T State.

Lemma slice_padded_rows max_len (scores : Tensor2 T) :
  wf2 scores = true ->
  take (shape1 scores) <$> rows (padded_to max_len scores) = rows scores.
Proof.
  intros Hwf. cbn [padded_to rows]. rewrite <- list_fmap_compose.
  rewrite <- (list_fmap_id (rows scores)) at 2.
  apply list_fmap_ext. intros i r Hr. unfold compose.
  rewrite <- (wf2_row _ _ _ Hwf Hr). apply take_app_length.
Qed.

(** X2.  The slice of [_build] undoes the padding of [_pad_att_scores]: when
    the score tensors of the steps are as wide as the source and the base
    loop has stacked their paddings, [_build] returns the stack of the
    scores themselves, without a trace of the padding. *)
Theorem build_recovers_raw_scores self outputs final_state
    (scores padded : list (Tensor2 T)) :
  super_build self = Some (outputs, final_state) ->
  Forall (fun s => wf2 s = true
                   /\ shape1 s = t3_shape1 (attention_inputs self)) scores ->
  Forall2 (fun s p => _pad_att_scores self s = Some p) scores padded ->
  planes (attention_scores outputs) = rows <$> padded ->
  exists outputs',
    _build super_build self = Some (outputs', final_state)
    /\ planes (attention_scores outputs') = rows <$> scores.
Proof.
  intros Hsuper Hscores Hpad Hplanes. unfold _build. rewrite Hsuper.
  cbn [mbind option_bind]. eexists. split; [reflexivity|].
  cbn [_replace_attention_scores attention_scores slice_axis2 planes].
  rewrite Hplanes. clear Hplanes Hsuper.
  induction Hpad as [|s p scores padded Hp Hrest IH]; [done|].
  apply Forall_cons in Hscores as [[Hwf Hwidth] Hscores].
  cbn [fmap list_fmap]. f_equal; [|by apply IH].
  destruct (pad_att_scores_Some_inv _ _ _ Hp) as [_ ->].
  rewrite <- Hwidth. by apply slice_padded_rows.
Qed.

(** X3.  Scores that are exactly [attention_inputs_max_len] wide need no
    padding: [_pad_att_scores] returns them as they are. *)
Theorem pad_att_scores_exact_fit self (scores : Tensor2 T) :
  Z.of_nat (shape1 scores) = attention_inputs_max_len self ->
  _pad_att_scores self scores = Some scores.
Proof.
  intros Hfit. rewrite pad_att_scores_Some by lia.
  destruct scores as [n0 n1 rs]. unfold padded_to.
  cbn [shape0 shape1 rows] in *. f_equal. f_equal; [lia|].
  rewrite <- (list_fmap_id rs) at 2. apply list_fmap_ext.
  intros i r _. replace (Z.to_nat _ - n1) with 0 by lia.
  apply app_nil_r.
Qed.

Lemma slice_axis2_id n (t : Tensor3 T) :
  wf3 t = true -> t3_shape2 t <= n -> slice_axis2 n t = t.
Proof.
  intros [_ Hall]%wf3_spec Hle. destruct t as [n0 n1 n2 ps].
  unfold slice_axis2. cbn [t3_shape0 t3_shape1 t3_shape2 planes] in *.
  rewrite Nat.min_r by done. f_equal.
  rewrite <- (list_fmap_id ps) at 2. apply list_fmap_ext.
  intros i p Hp. pose proof (Forall_lookup_1 _ _ _ _ Hall Hp) as [_ Hrows].
  rewrite <- (list_fmap_id p) at 2. apply list_fmap_ext.
  intros j r Hr. pose proof (Forall_lookup_1 _ _ _ _ Hrows Hr) as Hlen.
  cbn beta in Hlen. unfold id. apply take_ge. lia.
Qed.

(** X4.  [_build] never widens or pads: when the accumulated scores are no
    wider than the source, it returns the outputs of the base loop
    unchanged. *)
Theorem build_keeps_narrow_scores self outputs final_state :
  super_build self = Some (outputs, final_state) ->
  wf3 (attention_scores outputs) = true ->
  t3_shape2 (attention_scores outputs)
  <= t3_shape1 (attention_inputs self) ->
  _build super_build self = Some (outputs, final_state).
Proof.
  intros Hsuper Hwf Hle. unfold _build. rewrite Hsuper.
  cbn [mbind option_bind]. rewrite slice_axis2_id by done.
  by destruct outputs.
Qed.
End PadSlice.

Lemma build_recovers_raw_scores_witness :
  exists outputs' final_state,
    _build Scenario.demo_super_build Scenario.decoder
    = Some (outputs', final_state)
    /\ planes (attention_scores outputs') = rows <$> Cases.step_scores.
Proof.
  destruct (Scenario.demo_super_build Scenario.decoder)
    as [[outputs final_state]|] eqn:Hsuper; [|by vm_compute in Hsuper].
  pose proof Hsuper as Hval. vm_compute in Hval. injection Hval as Ho Hs.
  destruct (build_recovers_raw_scores Scenario.demo_super_build
              Scenario.decoder outputs final_state Cases.step_scores
              (padded_to 8 <$> Cases.step_scores) Hsuper)
    as (outputs' & Hb & Hplanes).
  - repeat constructor.
  - repeat constructor.
  - by rewrite <- Ho.
  - by exists outputs', final_state.
Defined.

Lemma pad_att_scores_exact_fit_witness :
  _pad_att_scores Cases.exact_decoder Scenario.raw_scores
  = Some Scenario.raw_scores.
Proof.
  apply (pad_att_scores_exact_fit Cases.exact_decoder Scenario.raw_scores).
  reflexivity.
Defined.

Lemma build_keeps_narrow_scores_witness :
  exists outputs final_state,
    Scenario.demo_super_build Cases.exact_decoder
    = Some (outputs, final_state)
    /\ _build Scenario.demo_super_build Cases.exact_decoder
       = Some (outputs, final_state)
    /\ planes (attention_scores outputs) = rows <$> Cases.step_scores.
Proof.
  destruct (Scenario.demo_super_build Cases.exact_decoder)
    as [[outputs final_state]|] eqn:Hsuper; [|by vm_compute in Hsuper].
  pose proof Hsuper as Hval. vm_compute in Hval. injection Hval as Ho Hs.
  exists outputs, final_state. split; [done|]. split; [|by rewrite <- Ho].
  apply (build_keeps_narrow_scores Scenario.demo_super_build
           Cases.exact_decoder outputs final_state Hsuper).
  - by rewrite <- Ho.
  - rewrite <- Ho. by vm_compute.
Defined.

(** ** Reversal meets padding *)

Section ReversePadded.
Context {T State : Type} `{Scalar T}.
Variable store : string -> LayerVars T.
Implicit Type self : AttentionDecoder T State.

(** A prefix within the row is reversed without touching what follows
    the row. *)
Lemma reverse_prefix_app_le n (r z : list T) :
  n <= length r -> reverse_prefix n (r ++ z) = reverse_prefix n r ++ z.
Proof.
  intros Hn. unfold reverse_prefix.
  rewrite take_app_le, drop_app_le by done. by rewrite app_assoc.
Qed.


Lemma reverse_prefix_Permutation n (r : list T) : reverse_prefix n r ≡ₚ r.
Proof.
  unfold reverse_prefix. rewrite reverse_Permutation. by rewrite take_drop.
Qed.

(** The scores a step emits, in terms of the raw scores of its attention
    function. *)
Lemma step_scores_inv self time_ inputs state raw_cell_output att ctx
    outputs cell_state next_inputs finished :
  RNNCell.call (cell (base self)) inputs state
  = Some (raw_cell_output, cell_state) ->
  attention_fn self raw_cell_output (attention_inputs self)
  = Some (att, ctx) ->
  step store self time_ inputs state
  = Some (outputs, cell_state, next_inputs, finished) ->
  (Z.of_nat (shape1 att) <= attention_inputs_max_len self)%Z
  /\ match reverse_scores_lengths self with
     | Some seq_lengths =>
         tf_reverse_sequence
           (padded_to (attention_inputs_max_len self) att) seq_lengths
     | None => Some (padded_to (attention_inputs_max_len self) att)
     end = Some (attention_scores outputs).
Proof.
  intros Hcell Hatt
    (co & mixed & lg & att' & ctx' & padded & scores & ids & raw_next
     & Hcell' & Hout & Hpad & Hrev & _ & -> & _ & _)%step_Some_inv.
  rewrite Hcell in Hcell'. injection Hcell' as <-.
  destruct (compute_output_Some_inv store _ _ _ _ _ _ Hout)
    as (mix_inputs & Hatt' & _).
  rewrite Hatt in Hatt'. injection Hatt' as <- <-.
  by destruct (pad_att_scores_Some_inv _ _ _ Hpad) as [Hle ->].
Qed.

Lemma step_reversed_row self time_ inputs state raw_cell_output att ctx
    seq_lengths outputs cell_state next_inputs finished i r n :
  RNNCell.call (cell (base self)) inputs state
  = Some (raw_cell_output, cell_state) ->
  attention_fn self raw_cell_output (attention_inputs self)
  = Some (att, ctx) ->
  reverse_scores_lengths self = Some seq_lengths ->
  step store self time_ inputs state
  = Some (outputs, cell_state, next_inputs, finished) ->
  rows att !! i = Some r -> seq_lengths !! i = Some n ->
  (0 <= n <= attention_inputs_max_len self)%Z
  /\ (Z.of_nat (shape1 att) <= attention_inputs_max_len self)%Z
  /\ rows (attention_scores outputs) !! i
     = Some (reverse_prefix (Z.to_nat n)
               (r ++ replicate
                       (Z.to_nat (attention_inputs_max_len self)
                        - shape1 att) zero)).
Proof.
  intros Hcell Hatt Hlens Hstep Hr Hn.
  destruct (step_scores_inv _ _ _ _ _ _ _ _ _ _ _ Hcell Hatt Hstep)
    as [Hle Hrev].
  rewrite Hlens in Hrev.
  apply tf_reverse_sequence_Some in Hrev as (_ & Hall & ->).
  pose proof (Forall_lookup_1 _ _ _ _ Hall Hn) as Hrange.
  cbn [shape1 padded_to] in Hrange. split; [lia|]. split; [done|].
  cbn [rows padded_to]. apply lookup_zip_with_Some.
  eexists _, n. split; [done|]. split; [|done].
  by rewrite list_lookup_fmap, Hr.
Qed.

(** X5.  A reversal length within the source length reverses the raw scores
    themselves: the emitted row is the raw row with that prefix mirrored,
    followed by the padding, which stays at the end. *)
Theorem step_reversal_within_source self time_ inputs state
    raw_cell_output att ctx seq_lengths outputs cell_state next_inputs
    finished :
  RNNCell.call (cell (base self)) inputs state
  = Some (raw_cell_output, cell_state) ->
  attention_fn self raw_cell_output (attention_inputs self)
  = Some (att, ctx) ->
  wf2 att = true ->
  reverse_scores_lengths self = Some seq_lengths ->
  step store self time_ inputs state
  = Some (outputs, cell_state, next_inputs, finished) ->
  forall i r n,
    rows att !! i = Some r -> seq_lengths !! i = Some n ->
    (n <= Z.of_nat (shape1 att))%Z ->
    rows (attention_scores outputs) !! i
    = Some (reverse_prefix (Z.to_nat n) r
            ++ replicate
                 (Z.to_nat (attention_inputs_max_len self) - shape1 att)
                 zero).
Proof.
  intros Hcell Hatt Hwf Hlens Hstep i r n Hr Hn Hle.
  destruct (step_reversed_row _ _ _ _ _ _ _ _ _ _ _ _ i r n
              Hcell Hatt Hlens Hstep Hr Hn) as (_ & _ & ->).
  pose proof (wf2_row _ _ _ Hwf Hr) as Hlen.
  rewrite reverse_prefix_app_le by lia. done.
Qed.


(** X7.  Padding and reversal neither lose nor duplicate a score: every emitted
    row is a rearrangement of the raw row together with the padding
    zeros. *)
Theorem step_scores_rearranged self time_ inputs state raw_cell_output att
    ctx outputs cell_state next_inputs finished :
  RNNCell.call (cell (base self)) inputs state
  = Some (raw_cell_output, cell_state) ->
  attention_fn self raw_cell_output (attention_inputs self)
  = Some (att, ctx) ->
  step store self time_ inputs state
  = Some (outputs, cell_state, next_inputs, finished) ->
  forall i r',
    rows (attention_scores outputs) !! i = Some r' ->
    exists r,
      rows att !! i = Some r
      /\ r' ≡ₚ r ++ replicate
                      (Z.to_nat (attention_inputs_max_len self)
                       - shape1 att) zero.
Proof.
  intros Hcell Hatt Hstep i r' Hr'.
  destruct (step_scores_inv _ _ _ _ _ _ _ _ _ _ _ Hcell Hatt Hstep)
    as [_ Hrev].
  destruct (reverse_scores_lengths self) as [seq_lengths|].
  - apply tf_reverse_sequence_Some in Hrev as (_ & _ & Heq).
    rewrite Heq in Hr'. cbn [rows padded_to] in Hr'.
    apply lookup_zip_with_Some in Hr' as (p & n & -> & Hp & _).
    rewrite list_lookup_fmap in Hp.
    destruct (rows att !! i) as [r|]; [|done]. injection Hp as <-.
    exists r. split; [done|]. apply reverse_prefix_Permutation.
  - injection Hrev as Heq. rewrite <- Heq in Hr'.
    cbn [rows padded_to] in Hr'. rewrite list_lookup_fmap in Hr'.
    destruct (rows att !! i) as [r|]; [|done]. injection Hr' as <-.
    by exists r.
Qed.
End ReversePadded.

(** The second example of the scenario with length 3: its first three
    scores are mirrored, the padding stays behind the row. *)
Lemma step_reversal_within_source_witness :
  exists outputs cell_state next_inputs finished,
    step Scenario.demo_store Scenario.reversing_decoder 0%Z
      Scenario.first_inputs Scenario.demo_state
    = Some (outputs, cell_state, next_inputs, finished)
    /\ rows (attention_scores outputs) !! 1
       = Some [5; 0; 7; 4; 3; 0; 0; 0]%Q.
Proof.
  destruct (step Scenario.demo_store Scenario.reversing_decoder 0%Z
              Scenario.first_inputs Scenario.demo_state)
    as [[[[outputs cell_state] next_inputs] finished]|] eqn:Hstep;
    [|by vm_compute in Hstep].
  assert (cell_state = Cases.first_cell_output) as Hcs.
  { vm_compute in Hstep. by injection Hstep as _ <- _ _. }
  exists outputs, cell_state, next_inputs, finished. split; [done|].
  rewrite (step_reversal_within_source Scenario.demo_store
             Scenario.reversing_decoder 0%Z Scenario.first_inputs
             Scenario.demo_state Cases.first_cell_output
             Scenario.raw_scores Cases.first_context [5; 3]%Z outputs
             cell_state next_inputs finished)
    with (i := 1) (r := [7; 0; 5; 4; 3]%Q) (n := 3%Z).
  - reflexivity.
  - by rewrite Hcs.
  - by vm_compute.
  - reflexivity.
  - reflexivity.
  - done.
  - reflexivity.
  - reflexivity.
  - by vm_compute.
Defined.


Lemma step_scores_rearranged_witness :
  exists outputs cell_state next_inputs finished,
    step Scenario.demo_store Cases.overlong_decoder 0%Z
      Scenario.first_inputs Scenario.demo_state
    = Some (outputs, cell_state, next_inputs, finished)
    /\ forall i r', rows (attention_scores outputs) !! i = Some r' ->
         exists r, rows Scenario.raw_scores !! i = Some r
                   /\ r' ≡ₚ r ++ [0; 0; 0]%Q.
Proof.
  destruct (step Scenario.demo_store Cases.overlong_decoder 0%Z
              Scenario.first_inputs Scenario.demo_state)
    as [[[[outputs cell_state] next_inputs] finished]|] eqn:Hstep;
    [|by vm_compute in Hstep].
  assert (cell_state = Cases.first_cell_output) as Hcs.
  { vm_compute in Hstep. by injection Hstep as _ <- _ _. }
  exists outputs, cell_state, next_inputs, finished. split; [done|].
  assert (RNNCell.call (cell (base Cases.overlong_decoder))
            Scenario.first_inputs Scenario.demo_state
          = Some (Cases.first_cell_output, cell_state)) as Hcell
    by (by rewrite Hcs).
  exact (step_scores_rearranged Scenario.demo_store
           Cases.overlong_decoder 0%Z Scenario.first_inputs
           Scenario.demo_state Cases.first_cell_output
           Scenario.raw_scores Cases.first_context outputs
           cell_state next_inputs finished Hcell eq_refl Hstep).
Defined.

(** ** What a step does not depend on *)

Section StepFrame.
Context {T State : Type} `{Scalar T}.
Variable store : string -> LayerVars T.
Implicit Type self : AttentionDecoder T State.

(** X8.  The time index reaches the input function only.  Two steps from the
    same input and state at different times emit the same outputs and the
    same new state; they hand on the same next input and flags as soon as
    the input function answers alike at the two times. *)
Theorem step_outputs_ignore_time self time1 time2 inputs state
    outputs1 state1 next1 finished1 outputs2 state2 next2 finished2 :
  step store self time1 inputs state
  = Some (outputs1, state1, next1, finished1) ->
  step store self time2 inputs state
  = Some (outputs2, state2, next2, finished2) ->
  outputs1 = outputs2
  /\ state1 = state2
  /\ (input_fn (base self) (time1 + 1)%Z false (Some outputs1)
      = input_fn (base self) (time2 + 1)%Z false (Some outputs1) ->
      next1 = next2 /\ finished1 = finished2).
Proof.
  intros (co & mixed & lg & att & ctx & padded & scores & ids & raw_next
          & Hcell & Hout & Hpad & Hrev & Hpred & -> & Hin & Hcat)%step_Some_inv
    (co' & mixed' & lg' & att' & ctx' & padded' & scores' & ids' & raw_next'
     & Hcell' & Hout' & Hpad' & Hrev' & Hpred' & -> & Hin' & Hcat')
      %step_Some_inv.
  rewrite Hcell in Hcell'. injection Hcell' as <- <-.
  rewrite Hout in Hout'. injection Hout' as <- <- <- <-.
  rewrite Hpad in Hpad'. injection Hpad' as <-.
  rewrite Hrev in Hrev'. injection Hrev' as <-.
  rewrite Hpred in Hpred'. injection Hpred' as <-.
  split; [done|]. split; [done|]. intros Hsame.
  rewrite Hsame, Hin' in Hin. injection Hin as <- <-.
  rewrite Hcat in Hcat'. by injection Hcat' as <-.
Qed.

(** X9.  [attention_inputs_max_len] and [reverse_scores_lengths] shape the
    emitted scores and nothing else: two decoders that differ in these
    settings only emit, from the same input and state, the same logits,
    predictions, cell output and attention context, and reach the same new
    state. *)
Theorem step_fields_ignore_score_settings self1 self2 time_ inputs state
    outputs1 state1 next1 finished1 outputs2 state2 next2 finished2 :
  base self1 = base self2 ->
  vocab_size self1 = vocab_size self2 ->
  attention_inputs self1 = attention_inputs self2 ->
  attention_fn self1 = attention_fn self2 ->
  step store self1 time_ inputs state
  = Some (outputs1, state1, next1, finished1) ->
  step store self2 time_ inputs state
  = Some (outputs2, state2, next2, finished2) ->
  logits outputs1 = logits outputs2
  /\ predicted_ids outputs1 = predicted_ids outputs2
  /\ cell_output outputs1 = cell_output outputs2
  /\ attention_context outputs1 = attention_context outputs2
  /\ state1 = state2.
Proof.
  intros Hbase Hvocab Hinputs Hfn
    (co & mixed & lg & att & ctx & padded & scores & ids & raw_next
     & Hcell & Hout & _ & _ & Hpred & -> & _ & _)%step_Some_inv
    (co' & mixed' & lg' & att' & ctx' & padded' & scores' & ids' & raw_next'
     & Hcell' & Hout' & _ & _ & Hpred' & -> & _ & _)%step_Some_inv.
  cbn [logits predicted_ids cell_output attention_context].
  rewrite Hbase, Hcell' in Hcell. injection Hcell as <- <-.
  destruct (compute_output_Some_inv store _ _ _ _ _ _ Hout)
    as (mix & Hatt & Hcat & Hmixed & Hlg).
  destruct (compute_output_Some_inv store _ _ _ _ _ _ Hout')
    as (mix' & Hatt' & Hcat' & Hmixed' & Hlg').
  rewrite Hfn, Hinputs, Hatt' in Hatt. injection Hatt as <- <-.
  rewrite Hcat' in Hcat. injection Hcat as <-.
  rewrite Hbase in Hmixed. rewrite <- Hmixed' in Hmixed. subst mixed.
  rewrite Hvocab in Hlg. rewrite <- Hlg' in Hlg. subst lg.
  rewrite Hbase, Hpred' in Hpred. injection Hpred as <-.
  done.
Qed.
End StepFrame.

Lemma step_outputs_ignore_time_witness :
  exists outputs state' next1 finished1 next2 finished2,
    step Scenario.demo_store Scenario.decoder 0%Z Scenario.first_inputs
      Scenario.demo_state
    = Some (outputs, state', next1, finished1)
    /\ step Scenario.demo_store Scenario.decoder 5%Z Scenario.first_inputs
         Scenario.demo_state
       = Some (outputs, state', next2, finished2)
    /\ finished1 = [false; false] /\ finished2 = [true; true].
Proof.
  destruct (step Scenario.demo_store Scenario.decoder 0%Z
              Scenario.first_inputs Scenario.demo_state)
    as [[[[outputs1 state1] next1] finished1]|] eqn:Hstep1;
    [|by vm_compute in Hstep1].
  destruct (step Scenario.demo_store Scenario.decoder 5%Z
              Scenario.first_inputs Scenario.demo_state)
    as [[[[outputs2 state2] next2] finished2]|] eqn:Hstep2;
    [|by vm_compute in Hstep2].
  destruct (step_outputs_ignore_time _ _ _ _ _ _ _ _ _ _ _ _ _ _
              Hstep1 Hstep2) as (<- & <- & _).
  exists outputs1, state1, next1, finished1, next2, finished2.
  split; [done|]. split; [done|].
  vm_compute in Hstep1, Hstep2.
  injection Hstep1 as _ _ _ <-. by injection Hstep2 as _ _ _ <-.
Defined.

Lemma step_fields_ignore_score_settings_witness :
  exists outputs1 outputs2 state' next1 next2 finished1 finished2,
    step Scenario.demo_store Scenario.decoder 0%Z Scenario.first_inputs
      Scenario.demo_state
    = Some (outputs1, state', next1, finished1)
    /\ step Scenario.demo_store Cases.overlong_decoder 0%Z
         Scenario.first_inputs Scenario.demo_state
       = Some (outputs2, state', next2, finished2)
    /\ logits outputs1 = logits outputs2
    /\ attention_scores outputs1 <> attention_scores outputs2.
Proof.
  destruct (step Scenario.demo_store Scenario.decoder 0%Z
              Scenario.first_inputs Scenario.demo_state)
    as [[[[outputs1 state1] next1] finished1]|] eqn:Hstep1;
    [|by vm_compute in Hstep1].
  destruct (step Scenario.demo_store Cases.overlong_decoder 0%Z
              Scenario.first_inputs Scenario.demo_state)
    as [[[[outputs2 state2] next2] finished2]|] eqn:Hstep2;
    [|by vm_compute in Hstep2].
  destruct (step_fields_ignore_score_settings Scenario.demo_store
              Scenario.decoder Cases.overlong_decoder 0%Z
              Scenario.first_inputs Scenario.demo_state
              _ _ _ _ _ _ _ _ eq_refl eq_refl eq_refl eq_refl
              Hstep1 Hstep2) as (Hlg & _ & _ & _ & <-).
  exists outputs1, outputs2, state1, next1, next2, finished1, finished2.
  split; [done|]. split; [done|]. split; [done|].
  vm_compute in Hstep1, Hstep2.
  injection Hstep1 as <- _ _ _. injection Hstep2 as <- _ _ _.
  discriminate.
Defined.

(** ** Defaults, batches and widths *)

Section Configuration.
Context {T State : Type} `{Scalar T}.
Variable store : string -> LayerVars T.
Implicit Type self : AttentionDecoder T State.

(** X10.  A decoder constructed without [attention_inputs_max_len] declares and
    pads its scores to 500 columns, and rejects scores over more than 500
    source positions. *)
Theorem default_max_len_is_500
    (cell : RNNCell.t T State)
    (input_fn : Z -> bool -> option (StepOutput T)
                -> option (Tensor2 T * list bool))
    (initial_state : State) (vocab_size : nat)
    (attention_inputs : Tensor3 T)
    (attention_fn : Tensor2 T -> Tensor3 T
                    -> option (Tensor2 T * Tensor2 T))
    (max_decode_length : Z)
    (reverse_scores_lengths : option (list Z))
    (prediction_fn : option (Tensor2 T -> option (list Z)))
    (name : option string) (scores : Tensor2 T) :
  let self :=
    __init__ cell input_fn initial_state vocab_size attention_inputs
      attention_fn max_decode_length reverse_scores_lengths None
      prediction_fn name in
  attention_scores (output_size self) = 500%Z
  /\ (shape1 scores <= 500 ->
      exists padded,
        _pad_att_scores self scores = Some padded
        /\ shape1 padded = 500
        /\ (wf2 scores = true ->
            Forall (fun r => length r = 500) (rows padded)))
  /\ (500 < shape1 scores -> _pad_att_scores self scores = None).
Proof.
  intros self. split; [done|]. split.
  - intros Hle. exists (padded_to 500 scores).
    split; [apply pad_att_scores_Some; cbn; lia|]. split; [done|].
    intros Hwf.
    assert (Z.of_nat (shape1 scores) <= 500)%Z as Hle' by lia.
    by pose proof (padded_to_wf _ _ Hwf Hle') as [_ Hrows]%wf2_spec.
  - intros Hgt. apply pad_att_scores_None. cbn. lia.
Qed.

(** X11.  Only the batches of the cell output and of the attention context have
    to agree: with equal batches [compute_output] returns whatever the two
    widths are, with different batches the concatenation is rejected and
    [compute_output] fails, and with it the step. *)
Theorem compute_output_needs_equal_batches self raw_cell_output att ctx :
  attention_fn self raw_cell_output (attention_inputs self)
  = Some (att, ctx) ->
  (shape0 raw_cell_output = shape0 ctx ->
   exists mixed lg,
     compute_output store self raw_cell_output
     = Some (mixed, lg, att, ctx)
     /\ shape0 lg = shape0 raw_cell_output
     /\ shape1 lg = vocab_size self)
  /\ (shape0 raw_cell_output <> shape0 ctx ->
      compute_output store self raw_cell_output = None
      /\ forall time_ inputs state cell_state,
           RNNCell.call (cell (base self)) inputs state
           = Some (raw_cell_output, cell_state) ->
           step store self time_ inputs state = None).
Proof.
  intros Hatt. split.
  - intros Hbatch.
    destruct (compute_output_is_Some store _ _ _ _ Hatt Hbatch)
      as (mixed & lg & Hout).
    exists mixed, lg. split; [done|].
    destruct (compute_output_Some_inv store _ _ _ _ _ _ Hout)
      as (mix & _ & Hcat & -> & ->).
    pose proof (tf_concat1_Some _ _ _ Hcat) as (_ & Hs0 & _).
    cbn [fully_connected shape0 shape1]. by split.
  - intros Hbatch.
    assert (compute_output store self raw_cell_output = None) as Hnone.
    { unfold compute_output. rewrite Hatt. cbn [mbind option_bind].
      unfold tf_concat1. by rewrite decide_False by done. }
    split; [done|]. intros time_ inputs state cell_state Hcell.
    unfold step. rewrite Hcell. cbn [mbind option_bind].
    by rewrite Hnone.
Qed.

(** X12.  The zero block of [initialize] stands in for an attention context of
    the width of the feature axis of [attention_inputs].  When the input
    function keeps the width of its raw inputs, the input handed on by a
    step is as wide as the first input exactly when the context of the
    attention function has that width. *)
Theorem next_inputs_keep_width self time_ inputs state raw_first
    finished_first raw_next outputs cell_state next_inputs finished :
  input_fn (base self) 0%Z true None = Some (raw_first, finished_first) ->
  step store self time_ inputs state
  = Some (outputs, cell_state, next_inputs, finished) ->
  input_fn (base self) (time_ + 1)%Z false (Some outputs)
  = Some (raw_next, finished) ->
  shape1 raw_next = shape1 raw_first ->
  exists first_inputs,
    initialize self
    = Some (finished_first, first_inputs, initial_state (base self))
    /\ shape0 first_inputs = shape0 raw_first
    /\ (shape1 next_inputs = shape1 first_inputs
        <-> shape1 (attention_context outputs)
            = t3_shape2 (attention_inputs self)).
Proof.
  intros Hfirst
    (co & mixed & lg & att & ctx & padded & scores & ids & raw_next'
     & _ & _ & _ & _ & _ & -> & Hin & Hcat)%step_Some_inv Hnext Hwidth.
  rewrite Hnext in Hin. injection Hin as <-.
  pose proof (tf_concat1_Some _ _ _ Hcat) as (_ & _ & Hw & _).
  cbn [attention_context]. unfold initialize. rewrite Hfirst.
  cbn [mbind option_bind]. unfold tf_concat1 at 1.
  cbn [tf_zeros shape0 shape1]. rewrite decide_True by done.
  cbn [mbind option_bind]. eexists. split; [reflexivity|].
  cbn [shape0 shape1]. split; [done|]. lia.
Qed.
End Configuration.

Lemma default_max_len_is_500_witness :
  exists padded,
    _pad_att_scores Cases.default_decoder Scenario.raw_scores = Some padded
    /\ shape1 padded = 500
    /\ Forall (fun r => length r = 500) (rows padded).
Proof.
  destruct (default_max_len_is_500 Scenario.demo_cell
              Scenario.demo_input_fn Scenario.demo_state 10
              Scenario.encoder_outputs Scenario.demo_attention 6%Z None
              None None Scenario.raw_scores) as (_ & Hpad & _).
  destruct Hpad as (padded & Hp & Hw & Hrows);
    [cbn [shape1 Scenario.raw_scores]; lia|].
  exists padded. split; [done|]. split; [done|]. by apply Hrows.
Defined.

(** The cell output and the context of the first step, both a batch of
    two, of widths 4 and 3. *)
Lemma compute_output_needs_equal_batches_witness :
  exists mixed lg,
    compute_output Scenario.demo_store Scenario.decoder
      Cases.first_cell_output
    = Some (mixed, lg, Scenario.raw_scores, Cases.first_context)
    /\ shape1 lg = 10.
Proof.
  destruct (compute_output_needs_equal_batches Scenario.demo_store
              Scenario.decoder Cases.first_cell_output Scenario.raw_scores
              Cases.first_context) as [Hsome _]; [by vm_compute|].
  destruct (Hsome eq_refl) as (mixed & lg & Hout & _ & Hw).
  by exists mixed, lg.
Defined.

Lemma next_inputs_keep_width_witness :
  exists outputs cell_state next_inputs finished first_inputs,
    step Scenario.demo_store Scenario.decoder 0%Z Scenario.first_inputs
      Scenario.demo_state
    = Some (outputs, cell_state, next_inputs, finished)
    /\ initialize Scenario.decoder
       = Some ([false; false], first_inputs, Scenario.demo_state)
    /\ shape1 next_inputs = shape1 first_inputs.
Proof.
  destruct (step Scenario.demo_store Scenario.decoder 0%Z
              Scenario.first_inputs Scenario.demo_state)
    as [[[[outputs cell_state] next_inputs] finished]|] eqn:Hstep;
    [|by vm_compute in Hstep].
  pose proof Hstep as Hval. vm_compute in Hval.
  injection Hval as Ho Hs Hn Hf.
  destruct (next_inputs_keep_width Scenario.demo_store Scenario.decoder
              0%Z Scenario.first_inputs Scenario.demo_state
              (mkTensor2 2 1 [[1]; [2]]%Q) [false; false]
              (mkTensor2 2 1 [[8]; [9]]%Q) outputs cell_state next_inputs
              finished eq_refl Hstep)
    as (first_inputs & Hinit & _ & Hiff).
  - rewrite <- Ho, <- Hf. by vm_compute.
  - reflexivity.
  - exists outputs, cell_state, next_inputs, finished, first_inputs.
    split; [done|]. split; [done|]. apply Hiff. by rewrite <- Ho.
Defined.
